(** * Keycode codec and key popover of pipette-desktop

    A shallow embedding of the keycode codec as it is given in
    [src/renderer/components/keycodes/__tests__/KeyPopover.test.tsx]
    (the stand-ins installed with [vi.mock] for [shared/keycodes/keycodes]),
    of the popover's mode logic ([KeyPopover.tsx]), of the modifier strip
    ([ModifierCheckboxStrip.tsx]) and of the page structure of the PDF export
    ([generateKeymapPdf]).  Further modules embed the name lookups of the
    same test file, the layer selector, the decompression guard ([lzma]),
    the Content-Security-Policy builder, the helpers of the PDF export, the
    start-up notification hook and the device connection state.

    JavaScript numbers are modelled as [Z]: every value the codec handles is
    an integer.  The bit operators work on the 32-bit two's complement image
    of their operands ([ToInt32]); that wrap-around is written out in
    [JS.to_int32]. *)

From Stdlib Require Import ZArith List String Ascii Bool Lia.
From Stdlib Require Import DecimalString Sorting.Permutation Sorting.Sorted.
From Stdlib Require HexString.
Import ListNotations.

Local Open Scope Z_scope.

(* ------------------------------------------------------------------ *)
(** ** JavaScript integer operators *)

Module JS.

(** [ToInt32]: reduce modulo 2^32 into the signed range. *)
Definition to_int32 (x : Z) : Z :=
  let m := x mod 2 ^ 32 in
  if m <? 2 ^ 31 then m else m - 2 ^ 32.

(** [a & b], [a | b], [a ^ b]: the bitwise combination of two int32
    values is again an int32, so no second wrap is needed. *)
Definition band (a b : Z) : Z := Z.land (to_int32 a) (to_int32 b).
Definition bor (a b : Z) : Z := Z.lor (to_int32 a) (to_int32 b).
Definition bxor (a b : Z) : Z := Z.lxor (to_int32 a) (to_int32 b).

(** [~a] *)
Definition bnot (a : Z) : Z := Z.lnot (to_int32 a).

(** [a << b]: the shift count is taken modulo 32 and the result wraps. *)
Definition shl (a b : Z) : Z :=
  to_int32 (Z.shiftl (to_int32 a) (Z.land b 31)).

(** [a >> b]: sign-propagating shift. *)
Definition sar (a b : Z) : Z := Z.shiftr (to_int32 a) (Z.land b 31).

End JS.

Declare Scope js_scope.
Delimit Scope js_scope with js.
Infix ".&" := JS.band (at level 40, left associativity) : js_scope.
Infix ".|" := JS.bor (at level 50, left associativity) : js_scope.
Infix ".^" := JS.bxor (at level 45, left associativity) : js_scope.
Infix ".<<" := JS.shl (at level 34, left associativity) : js_scope.
Infix ".>>" := JS.sar (at level 34, left associativity) : js_scope.
Local Open Scope js_scope.

(* ------------------------------------------------------------------ *)
(** ** The codec (KeyPopover.test.tsx, lines 101-129) *)

Module Codec.

Definition isLMKeycode (code : Z) : bool := (0x7000 <=? code) && (code <=? 0x70ff).
Definition isLTKeycode (code : Z) : bool := (0x4000 <=? code) && (code <? 0x5000).
Definition isSHTKeycode (code : Z) : bool := (0x5600 <=? code) && (code <=? 0x56ef).
Definition isModMaskKeycode (code : Z) : bool := (0x0100 <=? code) && (code <=? 0x1fff).
Definition isModTapKeycode (code : Z) : bool := (0x6000 <=? code) && (code <? 0x8000).

Definition extractLTLayer (code : Z) : Z := (code .>> 8) .& 0x0f.
Definition extractLMLayer (code : Z) : Z := (code .>> 4) .& 0x0f.
Definition extractLMMod (code : Z) : Z := code .& 0x1f.
Definition extractModMask (code : Z) : Z := (code .>> 8) .& 0x1f.
Definition extractBasicKey (code : Z) : Z := code .& 0xff.

Definition buildLTKeycode (layer basicKey : Z) : Z :=
  0x4000 .| ((layer .& 0x0f) .<< 8) .| (basicKey .& 0xff).
Definition buildSHTKeycode (basicKey : Z) : Z :=
  0x5600 .| (basicKey .& 0xff).
Definition buildLMKeycode (layer mod_ : Z) : Z :=
  0x7000 .| ((layer .& 0x0f) .<< 4) .| (mod_ .& 0x1f).
Definition buildModMaskKeycode (mask key : Z) : Z :=
  if mask =? 0 then key .& 0xff
  else ((mask .& 0x1f) .<< 8) .| (key .& 0xff).
Definition buildModTapKeycode (mask key : Z) : Z :=
  if mask =? 0 then key .& 0xff
  else 0x6000 .| ((mask .& 0x1f) .<< 8) .| (key .& 0xff).

End Codec.

(* ------------------------------------------------------------------ *)
(** ** Names and the catalog fixtures (KeyPopover.test.tsx, lines 32-56) *)

Local Open Scope string_scope.
Local Open Scope Z_scope.
Local Open Scope js_scope.

(** A catalog entry: [{ qmkId, label, tooltip, hidden, alias, masked }]. *)
Record Keycode := mkKeycode {
  qmkId : string;
  label : string;
  tooltip : option string;
  hidden : bool;
  alias : list string;
  masked : bool
}.

Module Catalog.

(* The label of KC_TRNS is U+25BD, written here as its UTF-8 bytes. *)
Definition mockKeycodes : list Keycode :=
  [ mkKeycode "KC_TRNS" (String (ascii_of_nat 226) (String (ascii_of_nat 150)
                          (String (ascii_of_nat 189) EmptyString)))
              None false ["KC_TRNS"; "KC_TRANSPARENT"] false;
    mkKeycode "KC_A" "A" (Some "a") false ["KC_A"] false;
    mkKeycode "KC_B" "B" (Some "b") false ["KC_B"] false;
    mkKeycode "KC_ENTER" "Enter" (Some "Return") false ["KC_ENTER"; "KC_ENT"] false;
    mkKeycode "KC_SPACE" "Space" (Some "space") false ["KC_SPACE"; "KC_SPC"] false ].

Definition mockLayerKeycodes : list Keycode :=
  [ mkKeycode "MO(1)" "MO(1)" None false ["MO(1)"] false ].

Definition mockLMMods : list Keycode :=
  [ mkKeycode "MOD_LSFT" "LSft" (Some "Left Shift") false ["MOD_LSFT"] false;
    mkKeycode "MOD_LCTL" "LCtl" (Some "Left Control") false ["MOD_LCTL"] false ].

Definition allMockKeycodes : list Keycode := mockKeycodes ++ mockLMMods.

(** Every entry the fixtures define, over all categories. *)
Definition entries : list Keycode := allMockKeycodes ++ mockLayerKeycodes.

(** The lookup keys of the catalog: each entry's id and its aliases. *)
Definition names : list string :=
  flat_map (fun kc => qmkId kc :: alias kc) entries.

Definition is_name (name : string) : bool :=
  existsb (String.eqb name) names.

End Catalog.

(* ------------------------------------------------------------------ *)
(** ** The symbolic resolver (KeyPopover.test.tsx, lines 59-88, 110-121) *)

Module Resolver.

(** [n.toString(16)] for an integer [n]. *)
Definition toString16 (n : Z) : string :=
  match n with
  | Z0 => "0"
  | Zpos p => HexString.Raw.of_pos p ""
  | Zneg p => ("-" ++ HexString.Raw.of_pos p "")%string
  end.

Fixpoint repeat_char (c : ascii) (n : nat) : string :=
  match n with
  | O => ""
  | S n' => String c (repeat_char c n')
  end.

(** [s.padStart(targetLength, c)] for a one-character pad. *)
Definition padStart (s : string) (targetLength : nat) (c : ascii) : string :=
  (repeat_char c (targetLength - String.length s) ++ s)%string.

Definition serialize (code : Z) : string :=
  if code =? 4 then "KC_A"
  else if code =? 5 then "KC_B"
  else if code =? 0x2c then "KC_SPACE"
  else if code =? 0x4004 then "LT0(KC_A)"
  else if code =? 0x4104 then "LT1(KC_A)"
  else if code =? 0x4204 then "LT2(KC_A)"
  else if code =? 0x5104 then "LT0(KC_A)"
  else if code =? 0x512c then "LT0(KC_SPACE)"
  else if code =? 0x5105 then "LT0(KC_B)"
  else if code =? 0x5604 then "SH_T(KC_A)"
  else if code =? 0x0204 then "LSFT(KC_A)"
  else if code =? 0x2304 then "C_S_T(KC_A)"
  else if code =? 0x7000 then "LM0(0x0)"
  else if code =? 0x7002 then "LM0(MOD_LSFT)"
  else ("0x" ++ padStart (toString16 code) 4 "0")%string.

Definition deserialize (val : string) : Z :=
  if (val =? "KC_A")%string then 4
  else if (val =? "KC_B")%string then 5
  else if (val =? "KC_SPACE")%string then 0x2c
  else 0.

Definition resolve (name : string) : Z :=
  if (name =? "QMK_LM_MASK")%string then 0x1f
  else if (name =? "QK_LAYER_TAP")%string then 0x4000
  else if (name =? "SH_T(kc)")%string then 0x5600
  else if (name =? "KC_A")%string then 4
  else if (name =? "KC_B")%string then 5
  else if (name =? "KC_SPACE")%string then 0x2c
  else if (name =? "KC_ENTER")%string then 0x28
  else if (name =? "MOD_LSFT")%string then 0x02
  else if (name =? "MOD_LCTL")%string then 0x01
  else 0.

(** The names [resolve] answers that are protocol constants and wrapper
    templates rather than catalog entries. *)
Definition protocol_names : list string :=
  ["QMK_LM_MASK"; "QK_LAYER_TAP"; "SH_T(kc)"].

End Resolver.

(* ------------------------------------------------------------------ *)
(** ** The key popover (KeyPopover.tsx)

    The sources hold two revisions of [KeyPopover.tsx]; the one embedded here
    is the later, with the six wrapper modes, which the tests exercise.  The
    component is followed through its handlers: each takes the props and the
    state cells it reads and returns the callbacks it fires, in order, and
    the state it leaves. *)

Module KeyPopover.
Import Codec.

(** [type WrapperMode = 'none' | 'modMask' | 'modTap' | 'lt' | 'shT' | 'lm'] *)
Inductive WrapperMode : Set :=
| none | modMask | modTap | lt | shT | lm.

Definition WrapperMode_eqb (a b : WrapperMode) : bool :=
  match a, b with
  | none, none | modMask, modMask | modTap, modTap
  | lt, lt | shT, shT | lm, lm => true
  | _, _ => false
  end.

(** What the popover tells its parent: one constructor per callback prop. *)
Inductive Call : Set :=
| onRawKeycodeSelect (code : Z)
| onKeycodeSelect (kc : Keycode)
| onModMaskChange (newMask : Z).

(** The props the handlers read. *)
Record Props := mkProps {
  currentKeycode : Z;
  maskOnly : bool;
  hasOnModMaskChange : bool
}.

(** The [useState] cells the handlers read and write. *)
Record State := mkState {
  wrapperMode : WrapperMode;
  selectedLayer : Z;
  searchResetKey : Z
}.

(** Initializer of [wrapperMode]. *)
Definition initWrapperMode (maskOnly : bool) (currentKeycode : Z) : WrapperMode :=
  if maskOnly then none
  else if isLTKeycode currentKeycode then lt
  else if isSHTKeycode currentKeycode then shT
  else if isLMKeycode currentKeycode then lm
  else if isModTapKeycode currentKeycode then modTap
  else if isModMaskKeycode currentKeycode then modMask
  else none.

(** Initializer of [selectedLayer]. *)
Definition initSelectedLayer (currentKeycode : Z) : Z :=
  if isLTKeycode currentKeycode then extractLTLayer currentKeycode
  else if isLMKeycode currentKeycode then extractLMLayer currentKeycode
  else 0.

Definition initState (p : Props) : State :=
  mkState (initWrapperMode (maskOnly p) (currentKeycode p))
          (initSelectedLayer (currentKeycode p)) 0.

Definition currentModMask (p : Props) (s : State) : Z :=
  match wrapperMode s with
  | lm => extractLMMod (currentKeycode p)
  | modMask | modTap => extractModMask (currentKeycode p)
  | _ => 0
  end.

Definition handleModStripChange (p : Props) (s : State) (newMask : Z)
  : list Call * State :=
  let basicKey := extractBasicKey (currentKeycode p) in
  match wrapperMode s with
  | lm => ([onRawKeycodeSelect (buildLMKeycode (selectedLayer s) newMask)], s)
  | modTap => ([onRawKeycodeSelect (buildModTapKeycode newMask basicKey)], s)
  | _ =>
      if hasOnModMaskChange p then ([onModMaskChange newMask], s)
      else ([onRawKeycodeSelect (buildModMaskKeycode newMask basicKey)], s)
  end.

Definition handleKeycodeSelect (p : Props) (s : State) (kc : Keycode)
  : list Call * State :=
  let code := Resolver.resolve (qmkId kc) in
  match wrapperMode s with
  | lt => ([onRawKeycodeSelect (buildLTKeycode (selectedLayer s) code)], s)
  | shT => ([onRawKeycodeSelect (buildSHTKeycode code)], s)
  | lm => ([onRawKeycodeSelect (buildLMKeycode (selectedLayer s) code)], s)
  | modTap =>
      ([onRawKeycodeSelect (buildModTapKeycode (currentModMask p s) code)], s)
  | modMask =>
      ([onRawKeycodeSelect (buildModMaskKeycode (currentModMask p s) code)], s)
  | none => ([onKeycodeSelect kc], s)
  end.

Definition handleLayerChange (p : Props) (s : State) (layer : Z)
  : list Call * State :=
  let s' := mkState (wrapperMode s) layer (searchResetKey s) in
  let basicKey := extractBasicKey (currentKeycode p) in
  match wrapperMode s with
  | lt => ([onRawKeycodeSelect (buildLTKeycode layer basicKey)], s')
  | lm => ([onRawKeycodeSelect (buildLMKeycode layer (currentModMask p s))], s')
  | _ => ([], s')
  end.

(** The modifier mask a switch to a mod-based mode starts from. *)
Definition preservedMask (p : Props) (s : State) : Z :=
  match wrapperMode s with
  | modMask | modTap => extractModMask (currentKeycode p)
  | _ => 0
  end.

Definition handleModeSwitch (p : Props) (s : State) (newMode : WrapperMode)
  : list Call * State :=
  let target := if WrapperMode_eqb newMode (wrapperMode s) then none else newMode in
  let basicKey :=
    match wrapperMode s with
    | lm => 0
    | _ => extractBasicKey (currentKeycode p)
    end in
  let calls :=
    match target with
    | none =>
        if negb (basicKey =? currentKeycode p)
        then [onRawKeycodeSelect basicKey] else []
    | lt => [onRawKeycodeSelect (buildLTKeycode (selectedLayer s) basicKey)]
    | shT => [onRawKeycodeSelect (buildSHTKeycode basicKey)]
    | lm => [onRawKeycodeSelect (buildLMKeycode (selectedLayer s) 0)]
    | modTap =>
        [onRawKeycodeSelect (buildModTapKeycode (preservedMask p s) basicKey)]
    | modMask =>
        [onRawKeycodeSelect (buildModMaskKeycode (preservedMask p s) basicKey)]
    end in
  let resetKey :=
    if WrapperMode_eqb (wrapperMode s) lm && negb (WrapperMode_eqb target lm)
    then searchResetKey s + 1 else searchResetKey s in
  (calls, mkState target (selectedLayer s) resetKey).

(** The priority list of section 4.1 of the specification, as data: the
    range predicates with their tags, in the order LayerTap, HoldTap,
    LayerMod, ModTap, ModifierMask, and the first-match-wins reading of such
    a list. *)
Definition priority : list ((Z -> bool) * WrapperMode) :=
  [ (isLTKeycode, lt); (isSHTKeycode, shT); (isLMKeycode, lm);
    (isModTapKeycode, modTap); (isModMaskKeycode, modMask) ].

Fixpoint first_match (table : list ((Z -> bool) * WrapperMode)) (code : Z)
  : WrapperMode :=
  match table with
  | [] => none
  | (p, k) :: rest => if p code then k else first_match rest code
  end.

(** Classification of a raw keycode: the mode the popover opens in when it
    edits the whole keycode. *)
Definition classify (code : Z) : WrapperMode := initWrapperMode false code.

End KeyPopover.

(* ------------------------------------------------------------------ *)
(** ** The modifier strip (ModifierCheckboxStrip.tsx) *)

Module ModifierCheckboxStrip.

Definition RIGHT_BIT : Z := 1 .<< 4.
Definition MOD_BITS_MASK : Z := 0x0f.
Definition FULL_MASK : Z := 0x1f.

Definition MODS : list (string * Z) :=
  [ ("Ctl", 0); ("Sft", 1); ("Alt", 2); ("Gui", 3) ].

Definition isRight (modMask : Z) : bool := negb (modMask .& RIGHT_BIT =? 0).
Definition hasAnyMod (modMask : Z) : bool := negb (modMask .& MOD_BITS_MASK =? 0).

(** The value [toggle(bit, right)] hands to [onChange]. *)
Definition toggle (modMask : Z) (bit : Z) (right : bool) : Z :=
  let toggled := modMask .^ (1 .<< bit) in
  let hasMods := negb (toggled .& MOD_BITS_MASK =? 0) in
  let withSide :=
    if right && hasMods then toggled .| RIGHT_BIT
    else toggled .& JS.bnot RIGHT_BIT in
  withSide .& FULL_MASK.

(** A row's buttons are disabled while the other side holds modifiers. *)
Definition disabled (modMask : Z) (right : bool) : bool :=
  hasAnyMod modMask && negb (Bool.eqb right (isRight modMask)).

(** A click on the button of [bit] in the row [right]: a disabled button
    does not fire. *)
Definition click (modMask : Z) (bit : Z) (right : bool) : option Z :=
  if disabled modMask right then None else Some (toggle modMask bit right).

End ModifierCheckboxStrip.

(* ------------------------------------------------------------------ *)
(** ** Inner-byte editing (the Code tab in [maskOnly] mode) *)

Module PopoverTabCode.

(** Modelled from the spec: [PopoverTabCode.tsx] is not among the sources;
    only its test is.  In masked editing the Code tab edits the inner byte
    of the current keycode (the byte [extractBasicKey] reads), and applying
    a new inner byte keeps the outer tag bits of the current keycode:
    [(currentKeycode & 0xff00) | (inner & 0xff)]. *)
Definition applyInnerByte (currentKeycode inner : Z) : Z :=
  (currentKeycode .& 0xff00) .| (inner .& 0xff).

End PopoverTabCode.

(* ------------------------------------------------------------------ *)
(** ** The field codec as one build/extract pair per wrapper kind

    The table of section 4.2 of the specification, assembled from the codec's
    functions: which [build*] packs the fields of a kind and which
    [extract*] functions read them back. *)

Module FieldCodec.
Import Codec KeyPopover.

Inductive Fields : Set :=
| ModifierMaskF (mask key : Z)
| ModTapF (mask key : Z)
| LayerTapF (layer key : Z)
| HoldTapF (key : Z)
| LayerModF (layer mod_ : Z).

Definition kind_of (f : Fields) : WrapperMode :=
  match f with
  | ModifierMaskF _ _ => modMask
  | ModTapF _ _ => modTap
  | LayerTapF _ _ => lt
  | HoldTapF _ => shT
  | LayerModF _ _ => lm
  end.

Definition build (f : Fields) : Z :=
  match f with
  | ModifierMaskF mask key => buildModMaskKeycode mask key
  | ModTapF mask key => buildModTapKeycode mask key
  | LayerTapF layer key => buildLTKeycode layer key
  | HoldTapF key => buildSHTKeycode key
  | LayerModF layer mod_ => buildLMKeycode layer mod_
  end.

Definition extract (k : WrapperMode) (code : Z) : option Fields :=
  match k with
  | modMask => Some (ModifierMaskF (extractModMask code) (extractBasicKey code))
  | modTap => Some (ModTapF (extractModMask code) (extractBasicKey code))
  | lt => Some (LayerTapF (extractLTLayer code) (extractBasicKey code))
  | shT => Some (HoldTapF (extractBasicKey code))
  | lm => Some (LayerModF (extractLMLayer code) (extractLMMod code))
  | none => None
  end.

(** The fields as [build] packs them: each masked to its width. *)
Definition truncate (f : Fields) : Fields :=
  match f with
  | ModifierMaskF mask key => ModifierMaskF (mask .& 0x1f) (key .& 0xff)
  | ModTapF mask key => ModTapF (mask .& 0x1f) (key .& 0xff)
  | LayerTapF layer key => LayerTapF (layer .& 0x0f) (key .& 0xff)
  | HoldTapF key => HoldTapF (key .& 0xff)
  | LayerModF layer mod_ => LayerModF (layer .& 0x0f) (mod_ .& 0x1f)
  end.

Definition is_u4 (v : Z) : bool := (0 <=? v) && (v <=? 15).
Definition is_u5 (v : Z) : bool := (0 <=? v) && (v <=? 31).
Definition is_u8 (v : Z) : bool := (0 <=? v) && (v <=? 255).

(** The field values that fit their widths. *)
Definition in_width (f : Fields) : bool :=
  match f with
  | ModifierMaskF mask key | ModTapF mask key => is_u5 mask && is_u8 key
  | LayerTapF layer key => is_u4 layer && is_u8 key
  | HoldTapF key => is_u8 key
  | LayerModF layer mod_ => is_u4 layer && is_u5 mod_
  end.

(** [buildLMKeycode] puts the layer in bits 4-7 and the modifier in bits
    0-4, so bit 0 of the layer and bit 4 of the modifier land on the same
    bit of the keycode.  The two fields agree on it when both have their
    bit set or both have it clear. *)
Definition lm_shared_bit_agrees (f : Fields) : bool :=
  match f with
  | LayerModF layer mod_ => Bool.eqb (layer .& 1 =? 0) (mod_ .& 0x10 =? 0)
  | _ => true
  end.

End FieldCodec.

(* ------------------------------------------------------------------ *)
(** ** Page structure of the PDF export (generateKeymapPdf)

    The export is followed at the level of pages: which pages the document
    has and which drawing steps land on which page.  Coordinates, font sizes
    and colours are floating-point and play no part in the page structure;
    the arithmetic on key coordinates is a parameter of the section, so that
    what is proved holds for whatever the number type does. *)

Module KleKey.
Record t (number : Type) := mk {
  x : number;
  y : number;
  width : number;
  height : number;
  row : Z;
  col : Z;
  encoderIdx : Z;
  encoderDir : Z
}.
Arguments mk {number}.
Arguments x {number}.
Arguments y {number}.
Arguments width {number}.
Arguments height {number}.
Arguments row {number}.
Arguments col {number}.
Arguments encoderIdx {number}.
Arguments encoderDir {number}.
End KleKey.

Module Bounds.
Record t (number : Type) := mk {
  minX : number;
  minY : number;
  width : number;
  height : number
}.
Arguments mk {number}.
Arguments minX {number}.
Arguments minY {number}.
Arguments width {number}.
Arguments height {number}.
End Bounds.

Module KeymapPdf.

Section Model.

(** The number type of key coordinates and what [computeBounds] and the
    degenerate-bounds test do with it. *)
Variable number : Type.
Variable zero infinity neg_infinity : number.
Variable add sub : number -> number -> number.
Variable lt_num : number -> number -> bool.   (* a < b *)
Variable gt_num : number -> number -> bool.   (* a > b *)
Variable is_zero : number -> bool.            (* a === 0 *)

(** [Map<number, number>] of layout options, and the filter from
    [./kle/filter-keys], which is not among the sources. *)
Variable LayoutOptions : Type.
Variable filterVisibleKeys :
  list (KleKey.t number) -> LayoutOptions -> list (KleKey.t number).

(** [sanitizeLabel(s).trim()] and the clock reading
    [formatTimestamp(new Date())]. *)
Variable sanitizeLabel : string -> string.
Variable trim : string -> string.
Variable timestamp : string.

(** The fields of [PdfExportInput] the page structure depends on; the
    keymap, the encoder layout and the label callbacks are read only while
    a key is drawn. *)
Record PdfExportInput := mkInput {
  deviceName : string;
  layers : Z;
  keys : list (KleKey.t number);
  layoutOptions : LayoutOptions
}.

Definition computeBounds (ks : list (KleKey.t number)) : Bounds.t number :=
  match ks with
  | [] => Bounds.mk zero zero zero zero
  | _ =>
      let step (acc : number * number * number * number) (key : KleKey.t number) :=
        let '(minX, minY, maxX, maxY) := acc in
        let minX := if lt_num (KleKey.x key) minX then KleKey.x key else minX in
        let minY := if lt_num (KleKey.y key) minY then KleKey.y key else minY in
        let maxX :=
          if gt_num (add (KleKey.x key) (KleKey.width key)) maxX
          then add (KleKey.x key) (KleKey.width key) else maxX in
        let maxY :=
          if gt_num (add (KleKey.y key) (KleKey.height key)) maxY
          then add (KleKey.y key) (KleKey.height key) else maxY in
        (minX, minY, maxX, maxY) in
      let '(minX, minY, maxX, maxY) :=
        fold_left step ks (infinity, infinity, neg_infinity, neg_infinity) in
      Bounds.mk minX minY (sub maxX minX) (sub maxY minY)
  end.

(** The paper a document is created with. *)
Inductive PageFormat :=
| A4Landscape
| FitBounds (bounds : Bounds.t number).   (* [PAGE_WIDTH, pageHeight] *)

(** The drawing steps of [generateKeymapPdf], each painting on the
    current page only. *)
Inductive Draw :=
| LayerHeader (layer : Z)                      (* doc.text(`Layer ${layer}`) *)
| Border                                       (* the outer roundedRect *)
| DrawKey (layer : Z) (key : KleKey.t number)      (* drawKey *)
| DrawEncoder (layer : Z) (key : KleKey.t number)  (* drawEncoder *)
| Footer (text : string).                      (* doc.text(footerText) *)

Definition Page := list Draw.

(** A jsPDF document: its pages in order and the index of the page being
    drawn on. *)
Record Doc := mkDoc {
  format : PageFormat;
  pages : list Page;
  current : nat
}.

(** [new jsPDF(...)]: a document starts with one blank page. *)
Definition newDoc (f : PageFormat) : Doc := mkDoc f [[]] 0.

(** [doc.addPage()]: appends a blank page and moves to it. *)
Definition addPage (d : Doc) : Doc :=
  mkDoc (format d) (pages d ++ [[]])%list (List.length (pages d)).

(** [doc.setPage(p)], pages counted from 1. *)
Definition setPage (p : nat) (d : Doc) : Doc :=
  mkDoc (format d) (pages d) (p - 1).

Definition getNumberOfPages (d : Doc) : nat := List.length (pages d).

Fixpoint on_page (i : nat) (f : Page -> Page) (ps : list Page) : list Page :=
  match ps, i with
  | [], _ => []
  | p :: ps', O => f p :: ps'
  | p :: ps', S i' => p :: on_page i' f ps'
  end.

(** One drawing step on the current page. *)
Definition draw (op : Draw) (d : Doc) : Doc :=
  mkDoc (format d) (on_page (current d) (fun pg => (pg ++ [op])%list) (pages d))
        (current d).

Definition footerText (input : PdfExportInput) : string :=
  let deviceLabel := trim (sanitizeLabel (deviceName input)) in
  if (deviceLabel =? "")%string
  then ("Exported " ++ timestamp ++ " by Pipette")%string
  else (deviceLabel ++ " - Exported " ++ timestamp ++ " by Pipette")%string.

(** The layers [0 .. layers-1] the [for] loop visits. *)
Definition layer_indices (n : Z) : list Z :=
  map Z.of_nat (seq 0 (Z.to_nat n)).

(** The body of the per-layer loop. *)
Definition drawLayer (normalKeys encoderKeys : list (KleKey.t number))
           (d : Doc) (layer : Z) : Doc :=
  let d := if 0 <? layer then addPage d else d in
  let d := draw (LayerHeader layer) d in
  let d := draw Border d in
  let d := fold_left (fun d key => draw (DrawKey layer key) d) normalKeys d in
  fold_left (fun d key => draw (DrawEncoder layer key) d) encoderKeys d.

Definition generateKeymapPdf (input : PdfExportInput) : Doc :=
  let visibleKeys := filterVisibleKeys (keys input) (layoutOptions input) in
  let normalKeys := filter (fun k => KleKey.encoderIdx k =? -1) visibleKeys in
  let encoderKeys := filter (fun k => negb (KleKey.encoderIdx k =? -1)) visibleKeys in
  let bounds := computeBounds visibleKeys in
  if is_zero (Bounds.width bounds) || is_zero (Bounds.height bounds)
  then newDoc A4Landscape
  else
    let doc := newDoc (FitBounds bounds) in
    let doc :=
      fold_left (drawLayer normalKeys encoderKeys) (layer_indices (layers input)) doc in
    let totalPages := getNumberOfPages doc in
    fold_left (fun d p => draw (Footer (footerText input)) (setPage p d))
              (seq 1 totalPages) doc.

(** What the loop paints for one layer, and the page it ends up as. *)
Definition layerBody (normalKeys encoderKeys : list (KleKey.t number))
           (layer : Z) : Page :=
  ([LayerHeader layer; Border]
     ++ map (DrawKey layer) normalKeys
     ++ map (DrawEncoder layer) encoderKeys)%list.

Definition layerPage (input : PdfExportInput) (layer : Z) : Page :=
  let visibleKeys := filterVisibleKeys (keys input) (layoutOptions input) in
  (layerBody (filter (fun k => KleKey.encoderIdx k =? -1) visibleKeys)
             (filter (fun k => negb (KleKey.encoderIdx k =? -1)) visibleKeys)
             layer
     ++ [Footer (footerText input)])%list.

Definition degenerate (input : PdfExportInput) : bool :=
  let bounds :=
    computeBounds (filterVisibleKeys (keys input) (layoutOptions input)) in
  is_zero (Bounds.width bounds) || is_zero (Bounds.height bounds).

End Model.

Arguments mkInput {number LayoutOptions}.
Arguments deviceName {number LayoutOptions}.
Arguments layers {number LayoutOptions}.
Arguments keys {number LayoutOptions}.
Arguments layoutOptions {number LayoutOptions}.
Arguments A4Landscape {number}.
Arguments FitBounds {number}.
Arguments LayerHeader {number}.
Arguments Border {number}.
Arguments DrawKey {number}.
Arguments DrawEncoder {number}.
Arguments Footer {number}.
Arguments mkDoc {number}.
Arguments format {number}.
Arguments pages {number}.
Arguments current {number}.
Arguments newDoc {number}.
Arguments addPage {number}.
Arguments setPage {number}.
Arguments getNumberOfPages {number}.
Arguments on_page {number}.
Arguments draw {number}.
Arguments layer_indices n%_Z.
Arguments drawLayer {number}.
Arguments layerBody {number}.
Arguments footerText {number LayoutOptions}.
Arguments layerPage {number LayoutOptions}.
Arguments computeBounds {number}.
Arguments degenerate {number} zero infinity neg_infinity add sub lt_num gt_num
  is_zero {LayoutOptions}.
Arguments generateKeymapPdf {number} zero infinity neg_infinity add sub lt_num
  gt_num is_zero {LayoutOptions}.

End KeymapPdf.

(* ------------------------------------------------------------------ *)
(** ** Name tests and lookups (KeyPopover.test.tsx, lines 89-100)

    The regular expressions are followed character by character.  They only
    look for ASCII characters, so reading a name as its UTF-8 bytes changes
    nothing: no byte of a non-ASCII character equals an ASCII one. *)

Module Names.

Local Open Scope char_scope.

Definition is_upper (c : ascii) : bool :=
  (Nat.leb 65 (nat_of_ascii c)) && (Nat.leb (nat_of_ascii c) 90).

Definition is_digit (c : ascii) : bool :=
  (Nat.leb 48 (nat_of_ascii c)) && (Nat.leb (nat_of_ascii c) 57).

(** [[A-Z0-9_]] *)
Definition is_word_char (c : ascii) : bool :=
  is_upper c || is_digit c || (c =? "_").

(** [[A-Z0-9_]*\(] at the start of [s]. *)
Fixpoint word_then_paren (s : string) : bool :=
  match s with
  | EmptyString => false
  | String c rest =>
      if c =? "(" then true
      else if is_word_char c then word_then_paren rest
      else false
  end.

(** [/^[A-Z][A-Z0-9_]*\(/.test(qmkId)] *)
Definition isMask (qmkId : string) : bool :=
  match qmkId with
  | EmptyString => false
  | String c rest => is_upper c && word_then_paren rest
  end.

Definition isBasic (qmkId : string) : bool := negb (isMask qmkId).

(** A digit as [toString(16)] writes them: [[0-9a-f]]. *)
Definition is_hex_digit (c : ascii) : bool :=
  is_digit c || ((Nat.leb 97 (nat_of_ascii c)) && (Nat.leb (nat_of_ascii c) 102)).

(** ["0x"] followed by four hexadecimal digits and nothing else. *)
Definition is_hex_literal (s : string) : bool :=
  match s with
  | String "0" (String "x"
      (String a (String b (String c (String d EmptyString))))) =>
      is_hex_digit a && is_hex_digit b && is_hex_digit c && is_hex_digit d
  | _ => false
  end.

(** The characters of [s] before its first [")"], when it has one. *)
Fixpoint until_close (s : string) : option string :=
  match s with
  | EmptyString => None
  | String c rest =>
      if c =? ")" then Some EmptyString
      else option_map (String c) (until_close rest)
  end.

(** Group 1 of [/\(([^)]+)\)/.exec(s)]: at the first ["("] that is followed
    by at least one character other than [")"] and then by a [")"], the
    characters in between.  [[^)]+] is greedy and can only stop at a [")"],
    so at each ["("] there is one candidate. *)
Fixpoint inner_group (s : string) : option string :=
  match s with
  | EmptyString => None
  | String c rest =>
      if c =? "(" then
        match until_close rest with
        | Some (String c' run) => Some (String c' run)
        | _ => inner_group rest
        end
      else inner_group rest
  end.

(** Whether [c] occurs in [s]. *)
Fixpoint has_char (c : ascii) (s : string) : bool :=
  match s with
  | EmptyString => false
  | String c' rest => (c' =? c) || has_char c rest
  end.

Definition find_by_id (id : string) (kcs : list Keycode) : option Keycode :=
  find (fun kc => String.eqb (qmkId kc) id) kcs.

Definition findOuterKeycode (qmkId : string) : option Keycode :=
  find_by_id qmkId Catalog.mockKeycodes.

Definition findInnerKeycode (qmkId : string) : option Keycode :=
  match inner_group qmkId with
  | Some inner => find_by_id inner Catalog.allMockKeycodes
  | None => find_by_id qmkId Catalog.mockKeycodes
  end.

(** The codes [serialize] has a name for. *)
Definition named_codes : list Z :=
  [4; 5; 0x2c; 0x4004; 0x4104; 0x4204; 0x5104; 0x512c; 0x5105; 0x5604;
   0x0204; 0x2304; 0x7000; 0x7002].

End Names.

(* ------------------------------------------------------------------ *)
(** ** The layer selector (LayerSelector.tsx) *)

Module LayerSelector.

(** The layers the buttons stand for:
    [Array.from({ length: layers }, (_, i) => i)]; button [i] calls
    [onChange(i)]. *)
Definition buttons (layers : Z) : list Z :=
  map Z.of_nat (seq 0 (Z.to_nat layers)).

End LayerSelector.

(* ------------------------------------------------------------------ *)
(** ** The modifier strip, what it shows *)

Module ModifierButtons.
Import ModifierCheckboxStrip.

(** [aria-pressed] of the button of [bit] in the row [right]. *)
Definition active (modMask : Z) (bit : Z) (right : bool) : bool :=
  Bool.eqb right (isRight modMask) && negb (modMask .& (1 .<< bit) =? 0).

(** A mask as the strip itself hands them out: five bits, the right-hand
    flag only next to a modifier. *)
Definition well_formed (modMask : Z) : bool :=
  (0 <=? modMask) && (modMask <=? 0x1f)
  && (negb (isRight modMask) || hasAnyMod modMask).

End ModifierButtons.

(* ------------------------------------------------------------------ *)
(** ** The LZMA/XZ decompression guard (main process) *)

Module Lzma.

Definition MAX_COMPRESSED_SIZE : Z := 1 * 1024 * 1024.
Definition MAX_DECOMPRESSED_SIZE : Z := 10 * 1024 * 1024.

Definition XZ_MAGIC : list Z := [0xfd; 0x37; 0x7a; 0x58; 0x5a; 0x00].

(** A [Buffer]: its bytes, each in 0..255.  [Buffer.from(data)] keeps the
    low byte of every number. *)
Definition Buffer_from (data : list Z) : list Z :=
  map (fun v => v .& 0xff) data.

(** The loop returns [false] at the first index where the bytes differ. *)
Definition hasXzMagic (buf : list Z) : bool :=
  if (List.length buf <? List.length XZ_MAGIC)%nat then false
  else forallb (fun i => nth i buf 0 =? nth i XZ_MAGIC 0)
               (seq 0 (List.length XZ_MAGIC)).

(** Where the IPC handler sends its argument.  [None] stands for an
    argument that is absent or no array. *)
Inductive Route : Type :=
| Rejected
| ToXz (buf : list Z)
| ToLzma (data : list Z).

Definition route (data : option (list Z)) : Route :=
  match data with
  | None => Rejected
  | Some [] => Rejected
  | Some data =>
      if Z.of_nat (List.length data) >? MAX_COMPRESSED_SIZE then Rejected
      else if hasXzMagic (Buffer_from data) then ToXz (Buffer_from data)
      else ToLzma data
  end.

(** What the [xz] child process and the timer can tell [decompressXz]. *)
Inductive XzEvent : Type :=
| Timeout
| Data (chunk : list Z)
| Close (code : option Z)
| Error.

(** The variables of the [decompressXz] closure; [resolved] is the value
    the promise was resolved with, once it was. *)
Record XzState := mkXz {
  chunks : list (list Z);
  totalSize : Z;
  settled : bool;
  killed : bool;
  resolved : option (option string)
}.

Definition xz_start : XzState := mkXz [] 0 false false None.

Definition settle (value : option string) (s : XzState) : XzState :=
  if settled s then s
  else mkXz (chunks s) (totalSize s) true (killed s) (Some value).

Definition kill (s : XzState) : XzState :=
  mkXz (chunks s) (totalSize s) (settled s) true (resolved s).

Section Xz.

(** [Buffer.concat(chunks).toString('utf-8')]; [None] when it throws. *)
Variable decode : list Z -> option string.

Definition xz_step (s : XzState) (e : XzEvent) : XzState :=
  match e with
  | Timeout => settle None (kill s)
  | Data chunk =>
      let total := totalSize s + Z.of_nat (List.length chunk) in
      let s := mkXz (chunks s) total (settled s) (killed s) (resolved s) in
      if total >? MAX_DECOMPRESSED_SIZE then settle None (kill s)
      else mkXz (chunks s ++ [chunk]) total (settled s) (killed s) (resolved s)
  | Close code =>
      if totalSize s >? MAX_DECOMPRESSED_SIZE then settle None s
      else
        match code with
        | Some 0 => settle (decode (List.concat (chunks s))) s
        | _ => settle None s
        end
  | Error => settle None s
  end.

Definition xz_run (events : list XzEvent) : XzState :=
  fold_left xz_step events xz_start.

End Xz.

End Lzma.

(* ------------------------------------------------------------------ *)
(** ** Base64 of the document (unnamed/part_002, [arrayBufferToBase64])

    A [Uint8Array] is a list of bytes.  A JavaScript string whose code
    units are all below 256 is a [string]; [String.fromCharCode(...bytes)]
    makes such a string, one character per byte. *)

Module Base64.

Definition CHUNK_SIZE : nat := Z.to_nat 8192.

(** [bytes.subarray(a, b)], both ends clamped to the array. *)
Definition subarray (a b : nat) (bytes : list Byte.byte) : list Byte.byte :=
  firstn (b - a) (skipn a bytes).

Definition fromCharCode (codes : list Byte.byte) : string :=
  string_of_list_byte codes.

(** [chunks.join('')] *)
Definition join (chunks : list string) : string := String.concat "" chunks.

(** The [for] loop: [fuel] bounds the number of turns, the loop itself
    stops when [i] has reached the end of the bytes. *)
Fixpoint chunk_loop (fuel i : nat) (bytes : list Byte.byte)
         (chunks : list string) : list string :=
  match fuel with
  | O => chunks
  | S fuel' =>
      if (i <? List.length bytes)%nat
      then chunk_loop fuel' (i + CHUNK_SIZE) bytes
             (chunks ++ [fromCharCode (subarray i (i + CHUNK_SIZE) bytes)])%list
      else chunks
  end.

(** The chunks pushed for a buffer; every turn moves [i] forward, so one
    turn per byte is fuel enough. *)
Definition chunks_of (buffer : list Byte.byte) : list string :=
  chunk_loop (List.length buffer) 0 buffer [].

Section Encode.

(** The browser's [btoa]. *)
Variable btoa : string -> string.

Definition arrayBufferToBase64 (buffer : list Byte.byte) : string :=
  btoa (join (chunks_of buffer)).

End Encode.

End Base64.

(* ------------------------------------------------------------------ *)
(** ** Content-Security-Policy (unnamed/part_003) *)

Module Csp.

Definition BASE_DIRECTIVES : list string :=
  [ "default-src 'self'";
    "img-src 'self' data:";
    "font-src 'self'";
    "base-uri 'self'";
    "object-src 'none'";
    "frame-src 'none'";
    "frame-ancestors 'none'";
    "form-action 'self'" ]%string.

(** The [directives] array of [buildCsp]. *)
Definition directives (isDev : bool) : list string :=
  let inline := if isDev then " 'unsafe-inline'" else "" in
  let wsConnect := if isDev then " ws://localhost:*" else "" in
  (BASE_DIRECTIVES ++
     [ "script-src 'self'" ++ inline;
       "style-src 'self'" ++ inline;
       "connect-src 'self'" ++ wsConnect ]%string)%list.

Definition buildCsp (isDev : bool) : string :=
  String.concat "; " (directives isDev).

(** [s.includes(pattern)] *)
Definition includes (pattern s : string) : bool :=
  match String.index 0 pattern s with
  | Some _ => true
  | None => false
  end.

(** The key of a directive: the text before its first space. *)
Definition directive_key (d : string) : string :=
  match String.index 0 " " d with
  | Some n => String.substring 0 n d
  | None => d
  end.

End Csp.

(* ------------------------------------------------------------------ *)
(** ** The export time stamp (unnamed/part_002, [formatTimestamp]) *)

Module Timestamp.

(** The local-time fields of a [Date] that [formatTimestamp] reads, as the
    [get...] methods return them: [month] counts from 0. *)
Record Date := mkDate {
  getFullYear : Z;
  getMonth : Z;
  getDate : Z;
  getHours : Z;
  getMinutes : Z
}.

(** [String(n)] for an integer. *)
Definition String_of (n : Z) : string := NilZero.string_of_int (Z.to_int n).

Definition pad (n : Z) : string := Resolver.padStart (String_of n) 2 "0".

Definition formatTimestamp (date : Date) : string :=
  let d := (String_of (getFullYear date) ++ "-" ++ pad (getMonth date + 1)
              ++ "-" ++ pad (getDate date))%string in
  let t := (pad (getHours date) ++ ":" ++ pad (getMinutes date))%string in
  (d ++ " " ++ t)%string.

(** Reading a decimal field back. *)
Definition read (s : string) : option Z :=
  option_map Z.of_int (NilZero.int_of_string s).

(** A date a [Date] object can hold in the years 1000 to 9999. *)
Definition four_digit_year (date : Date) : Prop :=
  1000 <= getFullYear date <= 9999 /\
  0 <= getMonth date <= 11 /\
  1 <= getDate date <= 31 /\
  0 <= getHours date <= 23 /\
  0 <= getMinutes date <= 59.

End Timestamp.

(* ------------------------------------------------------------------ *)
(** ** Start-up notifications (hooks/useStartupNotification.ts) *)

Module StartupNotification.

Section Hook.

(** [AppNotification] (its type is not among the sources; the hook reads
    [publishedAt] only) and [new Date(s).getTime()], [None] for [NaN]. *)
Variable AppNotification : Type.
Variable publishedAt : AppNotification -> string.
Variable getTime : string -> option Z.

(** The answer of [notificationFetch]. *)
Record FetchResult := mkResult {
  success : bool;
  notifications : option (list AppNotification)
}.

(** The state of the hook. *)
Record State := mkState {
  visible : bool;
  shown : list AppNotification
}.

Definition initial : State := mkState false [].

(** [lastSeenTs]: an absent or empty setting and an unreadable date all
    count as 0. *)
Definition lastSeenTs (lastNotificationSeen : option string) : Z :=
  match lastNotificationSeen with
  | None => 0
  | Some s =>
      if (s =? "")%string then 0
      else match getTime s with
           | Some parsed => parsed
           | None => 0
           end
  end.

(** [new Date(n.publishedAt).getTime() > lastSeenTs]; a comparison with
    [NaN] is false. *)
Definition newer (ts : Z) (n : AppNotification) : bool :=
  match getTime (publishedAt n) with
  | Some t => t >? ts
  | None => false
  end.

(** The comparator [(a, b) => time(b) - time(a)]; [sort] reads a [NaN]
    result as 0. *)
Definition compare (a b : AppNotification) : Z :=
  match getTime (publishedAt b), getTime (publishedAt a) with
  | Some tb, Some ta => tb - ta
  | _, _ => 0
  end.

(** [Array.prototype.sort] is stable: an element goes before the first
    one it must precede, and after the elements it ties with. *)
Fixpoint insert (a : AppNotification) (sorted : list AppNotification)
  : list AppNotification :=
  match sorted with
  | [] => [a]
  | b :: rest => if compare a b <=? 0 then a :: sorted else b :: insert a rest
  end.

Definition sort (ns : list AppNotification) : list AppNotification :=
  fold_right insert [] ns.

(** The [then] callback of the fetch (with [cancelled] false). *)
Definition onFetched (lastNotificationSeen : option string)
           (result : FetchResult) (s : State) : State :=
  match notifications result with
  | None => s
  | Some ns =>
      if negb (success result) || (List.length ns =? 0)%nat then s
      else
        let filtered := sort (filter (newer (lastSeenTs lastNotificationSeen)) ns) in
        if (List.length filtered =? 0)%nat then s
        else mkState true filtered
  end.

(** [dismiss]: the new state and the setting written, if any. *)
Definition dismiss (s : State) : State * option string :=
  (mkState false (shown s),
   match shown s with
   | n :: _ => Some (publishedAt n)
   | [] => None
   end).

(** The time of a notification that is shown. *)
Definition time (n : AppNotification) : Z :=
  match getTime (publishedAt n) with
  | Some t => t
  | None => 0
  end.

(** A notification whose date can be read. *)
Definition dated (n : AppNotification) : Prop :=
  getTime (publishedAt n) <> None.

(** A list in which no notification is older than one after it. *)
Definition newest_first : list AppNotification -> Prop :=
  StronglySorted (fun a b => time b <= time a).

End Hook.

Arguments mkResult {AppNotification}.
Arguments success {AppNotification}.
Arguments notifications {AppNotification}.
Arguments mkState {AppNotification}.
Arguments visible {AppNotification}.
Arguments shown {AppNotification}.
Arguments newer {AppNotification}.
Arguments compare {AppNotification}.
Arguments insert {AppNotification}.
Arguments sort {AppNotification}.
Arguments onFetched {AppNotification}.
Arguments dismiss {AppNotification}.
Arguments time {AppNotification}.
Arguments dated {AppNotification}.
Arguments newest_first {AppNotification}.

End StartupNotification.

(* ------------------------------------------------------------------ *)
(** ** Reading a page of the export

    What was drawn on a page, for the properties of the export: the keys a
    page shows and whether a step draws a key the way its kind asks for. *)

Module PdfPage.

Section View.

Variable number : Type.

Definition drawn_key (op : KeymapPdf.Draw number) : list (KleKey.t number) :=
  match op with
  | KeymapPdf.DrawKey _ key => [key]
  | KeymapPdf.DrawEncoder _ key => [key]
  | _ => []
  end.

(** The keys drawn on a page, in drawing order. *)
Definition drawn_keys (pg : KeymapPdf.Page number) : list (KleKey.t number) :=
  flat_map drawn_key pg.

(** [drawKey] is for keys without an encoder index, [drawEncoder] for the
    others; every step belongs to the layer of its page. *)
Definition drawn_as_its_kind (layer : Z) (op : KeymapPdf.Draw number) : bool :=
  match op with
  | KeymapPdf.LayerHeader l => l =? layer
  | KeymapPdf.DrawKey l key => (l =? layer) && (KleKey.encoderIdx key =? -1)
  | KeymapPdf.DrawEncoder l key =>
      (l =? layer) && negb (KleKey.encoderIdx key =? -1)
  | _ => true
  end.

(** A key lies inside the box spanned by the four extremes that
    [computeBounds] keeps: it starts neither left of [minX] nor above
    [minY] and ends neither right of [maxX] nor below [maxY]. *)
Definition inside (add : number -> number -> number)
           (lt_num gt_num : number -> number -> bool)
           (extremes : number * number * number * number)
           (key : KleKey.t number) : Prop :=
  let '(minX, minY, maxX, maxY) := extremes in
  lt_num (KleKey.x key) minX = false /\
  lt_num (KleKey.y key) minY = false /\
  gt_num (add (KleKey.x key) (KleKey.width key)) maxX = false /\
  gt_num (add (KleKey.y key) (KleKey.height key)) maxY = false.

End View.

Arguments drawn_key {number}.
Arguments drawn_keys {number}.
Arguments drawn_as_its_kind {number}.
Arguments inside {number}.

End PdfPage.

(* ------------------------------------------------------------------ *)
(** ** Device connection state (unnamed/part_001, [useDeviceConnection])

    The hook changes its state only through the updaters it passes to
    [setState]; React applies them one after the other.  The asynchronous
    calls decide which updaters are issued and when, not what they do. *)

Module DeviceConnection.

Record DeviceInfo := mkDevice {
  vendorId : Z;
  productId : Z;
  productName : string;
  serialNumber : string;
  type : string
}.

Record DeviceConnectionState := mkState {
  devices : list DeviceInfo;
  connectedDevice : option DeviceInfo;
  connecting : bool;
  error : option string;
  isDummy : bool
}.

Definition initial : DeviceConnectionState := mkState [] None false None false.

Definition dummyDevice : DeviceInfo := mkDevice 0 0 "Dummy_Keyboard" "" "vial".

(** The updaters, named after the place that issues them. *)
Inductive Update : Type :=
| Listed (found : list DeviceInfo)   (* refreshDevices, poll: list read *)
| ListFailed (err : string)          (* refreshDevices: list failed *)
| ConnectStarted                     (* connectDevice, before the call *)
| Opened (device : DeviceInfo)       (* connectDevice: success *)
| OpenRefused                        (* connectDevice: no success *)
| OpenFailed (err : string)          (* connectDevice: exception *)
| DummyConnected                     (* connectDummy *)
| Disconnected.                      (* disconnectDevice, handleDisconnect *)

Definition apply (s : DeviceConnectionState) (u : Update)
  : DeviceConnectionState :=
  match u with
  | Listed found =>
      mkState found (connectedDevice s) (connecting s) None (isDummy s)
  | ListFailed err =>
      mkState (devices s) (connectedDevice s) (connecting s) (Some err)
              (isDummy s)
  | ConnectStarted =>
      mkState (devices s) (connectedDevice s) true None (isDummy s)
  | Opened device =>
      mkState (devices s) (Some device) false (error s) (isDummy s)
  | OpenRefused =>
      mkState (devices s) (connectedDevice s) false
              (Some "Failed to open device") (isDummy s)
  | OpenFailed err =>
      mkState (devices s) (connectedDevice s) false (Some err) (isDummy s)
  | DummyConnected =>
      mkState (devices s) (Some dummyDevice) false None true
  | Disconnected =>
      mkState (devices s) None (connecting s) (error s) false
  end.

Definition run (updates : list Update) : DeviceConnectionState :=
  fold_left apply updates initial.

(** Whether [DummyConnected] occurs with no [Disconnected] after it. *)
Fixpoint dummy_since_disconnect (updates : list Update) (sofar : bool) : bool :=
  match updates with
  | [] => sofar
  | DummyConnected :: rest => dummy_since_disconnect rest true
  | Disconnected :: rest => dummy_since_disconnect rest false
  | _ :: rest => dummy_since_disconnect rest sofar
  end.

End DeviceConnection.

(* ------------------------------------------------------------------ *)
(** ** Finite ranges, for the properties settled by running the codec *)

Module Range.

(** The integers [0 .. n-1]. *)
Definition upto (n : nat) : list Z := map Z.of_nat (seq 0 n).

Definition all1 (n : nat) (P : Z -> bool) : bool := forallb P (upto n).

Definition all2 (n m : nat) (P : Z -> Z -> bool) : bool :=
  forallb (fun a => forallb (P a) (upto m)) (upto n).

End Range.

(* ================================================================== *)
(** * Properties *)

Module RangeFacts.
Import Range.

Lemma upto_complete (n : nat) (x : Z) : 0 <= x < Z.of_nat n -> In x (upto n).
Proof.
  intros Hx. unfold upto.
  replace x with (Z.of_nat (Z.to_nat x)) by lia.
  apply in_map, in_seq. lia.
Qed.

Lemma all1_spec (n : nat) (P : Z -> bool) :
  all1 n P = true -> forall a, 0 <= a < Z.of_nat n -> P a = true.
Proof.
  unfold all1. rewrite forallb_forall. intros H a Ha.
  apply H, upto_complete, Ha.
Qed.

Lemma all2_spec (n m : nat) (P : Z -> Z -> bool) :
  all2 n m P = true ->
  forall a b, 0 <= a < Z.of_nat n -> 0 <= b < Z.of_nat m -> P a b = true.
Proof.
  unfold all2. rewrite forallb_forall. intros H a b Ha Hb.
  specialize (H a (upto_complete n a Ha)).
  rewrite forallb_forall in H. apply H, upto_complete, Hb.
Qed.

End RangeFacts.

(* ------------------------------------------------------------------ *)
(** ** The integer operators *)

Module JSFacts.

Lemma to_int32_small (x : Z) : - 2 ^ 31 <= x < 2 ^ 31 -> JS.to_int32 x = x.
Proof.
  intros Hx. unfold JS.to_int32. cbv zeta.
  change (2 ^ 32) with 4294967296 in *. change (2 ^ 31) with 2147483648 in *.
  destruct (Z.ltb_spec (x mod 4294967296) 2147483648);
    Z.div_mod_to_equations; lia.
Qed.

Lemma pow2_32_split (n : Z) : 0 <= n <= 32 -> 2 ^ 32 = 2 ^ (32 - n) * 2 ^ n.
Proof. intros Hn. rewrite <- Z.pow_add_r by lia. f_equal. lia. Qed.

(** [ToInt32] keeps the low bits: it only adds a multiple of 2^32. *)
Lemma to_int32_mod_pow2 (x n : Z) :
  0 <= n <= 32 -> JS.to_int32 x mod 2 ^ n = x mod 2 ^ n.
Proof.
  intros Hn. unfold JS.to_int32. cbv zeta.
  assert (Hpos : 0 < 2 ^ n) by (apply Z.pow_pos_nonneg; lia).
  assert (Hlow : (x mod 2 ^ 32) mod 2 ^ n = x mod 2 ^ n).
  { apply Z.mod_mod_divide. exists (2 ^ (32 - n)). apply pow2_32_split, Hn. }
  destruct (x mod 2 ^ 32 <? 2 ^ 31); [exact Hlow |].
  rewrite <- Hlow.
  replace (x mod 2 ^ 32 - 2 ^ 32)
    with (x mod 2 ^ 32 + (- 2 ^ (32 - n)) * 2 ^ n)
    by (pose proof (pow2_32_split n Hn); rewrite Z.mul_opp_l; lia).
  apply Z.mod_add. lia.
Qed.

Lemma ones_small (n : Z) : 0 <= n <= 31 -> 0 <= Z.ones n < 2 ^ 31.
Proof.
  intros Hn. rewrite Z.ones_equiv.
  assert (0 < 2 ^ n) by (apply Z.pow_pos_nonneg; lia).
  assert (2 ^ n <= 2 ^ 31) by (apply Z.pow_le_mono_r; lia).
  lia.
Qed.

(** Masking with [2^n - 1] is reduction modulo [2^n], whatever the sign or
    size of the operand. *)
Lemma band_ones (x n : Z) : 0 <= n <= 31 -> JS.band x (Z.ones n) = x mod 2 ^ n.
Proof.
  intros Hn. unfold JS.band.
  rewrite (to_int32_small (Z.ones n)) by (pose proof (ones_small n Hn); lia).
  rewrite Z.land_ones by lia.
  apply to_int32_mod_pow2. lia.
Qed.

Lemma band_0x0f (x : Z) : x .& 0x0f = x mod 16.
Proof. exact (band_ones x 4 ltac:(lia)). Qed.

Lemma band_0x1f (x : Z) : x .& 0x1f = x mod 32.
Proof. exact (band_ones x 5 ltac:(lia)). Qed.

Lemma band_0xff (x : Z) : x .& 0xff = x mod 256.
Proof. exact (band_ones x 8 ltac:(lia)). Qed.

Lemma band_0x0f_range (x : Z) : 0 <= x .& 0x0f < 16.
Proof. rewrite band_0x0f. apply Z.mod_pos_bound. lia. Qed.

Lemma band_0x1f_range (x : Z) : 0 <= x .& 0x1f < 32.
Proof. rewrite band_0x1f. apply Z.mod_pos_bound. lia. Qed.

Lemma band_0xff_range (x : Z) : 0 <= x .& 0xff < 256.
Proof. rewrite band_0xff. apply Z.mod_pos_bound. lia. Qed.

(** Two masks in a row are one mask, when the first is [2^n - 1]. *)
Lemma band_band_ones (x n b : Z) :
  0 <= n <= 31 ->
  JS.band (JS.band x (Z.ones n)) b = JS.band x (Z.land (Z.ones n) (JS.to_int32 b)).
Proof.
  intros Hn.
  assert (Hr : 0 <= JS.band x (Z.ones n) < 2 ^ n).
  { rewrite band_ones by exact Hn. apply Z.mod_pos_bound, Z.pow_pos_nonneg; lia. }
  assert (Hm : 0 <= Z.land (Z.ones n) (JS.to_int32 b) < 2 ^ n).
  { rewrite Z.land_comm, Z.land_ones by lia.
    apply Z.mod_pos_bound, Z.pow_pos_nonneg; lia. }
  assert (2 ^ n <= 2 ^ 31) by (apply Z.pow_le_mono_r; lia).
  unfold JS.band at 1.
  rewrite (to_int32_small (JS.band x (Z.ones n))) by lia.
  unfold JS.band.
  rewrite (to_int32_small (Z.ones n)) by (pose proof (ones_small n Hn); lia).
  rewrite (to_int32_small (Z.land _ _)) by lia.
  apply eq_sym, Z.land_assoc.
Qed.

End JSFacts.

(* ------------------------------------------------------------------ *)
(** ** Classification *)

Module ClassifierFacts.
Import Codec KeyPopover.

Lemma WrapperMode_eqb_eq (a b : WrapperMode) :
  WrapperMode_eqb a b = true <-> a = b.
Proof. destruct a, b; simpl; split; congruence. Qed.

Lemma priority_order :
  map snd priority = [lt; shT; lm; modTap; modMask].
Proof. reflexivity. Qed.

(** Comparisons of a keycode against range bounds, turned into inequalities. *)
Ltac range_cases :=
  repeat match goal with
         | |- context [?a <=? ?b] => destruct (Z.leb_spec a b)
         | |- context [?a <? ?b] => destruct (Z.ltb_spec a b)
         end;
  simpl; try reflexivity; try lia.

(** C1. The popover classifies a raw keycode by trying the range predicates
    in the order LayerTap, HoldTap, LayerMod, ModTap, ModifierMask and taking
    the first that holds; every code in 0x7000..0x70FF lies in the ModTap
    range as well and is classified LayerMod, not ModTap. *)
Theorem classify_first_match_in_priority_order (code : Z) :
  classify code = first_match priority code /\
  map snd priority = [lt; shT; lm; modTap; modMask] /\
  (0x7000 <= code <= 0x70FF ->
   isModTapKeycode code = true /\ classify code = lm /\ classify code <> modTap).
Proof.
  split; [reflexivity | split; [reflexivity |]].
  intros Hcode.
  assert (Hlm : classify code = lm).
  { unfold classify, initWrapperMode, isLTKeycode, isSHTKeycode, isLMKeycode.
    range_cases. }
  repeat split.
  - unfold isModTapKeycode. range_cases.
  - exact Hlm.
  - rewrite Hlm. discriminate.
Qed.

Lemma classify_first_match_in_priority_order_witness :
  0x7000 <= 0x7002 <= 0x70FF /\ classify 0x7002 = lm.
Proof.
  split; [lia |].
  apply (proj2 (proj2 (classify_first_match_in_priority_order 0x7002))). lia.
Defined.

(** Every keycode gets exactly one mode, and a mode other than [none] only
    when its own predicate holds. *)
Lemma classify_sound (code : Z) :
  match classify code with
  | lt => isLTKeycode code = true
  | shT => isSHTKeycode code = true
  | lm => isLMKeycode code = true
  | modTap => isModTapKeycode code = true
  | modMask => isModMaskKeycode code = true
  | none => True
  end.
Proof.
  unfold classify, initWrapperMode.
  destruct (isLTKeycode code); [reflexivity |].
  destruct (isSHTKeycode code); [reflexivity |].
  destruct (isLMKeycode code); [reflexivity |].
  destruct (isModTapKeycode code); [reflexivity |].
  destruct (isModMaskKeycode code); [reflexivity | exact I].
Qed.

End ClassifierFacts.

(* ------------------------------------------------------------------ *)
(** ** Packing and unpacking fields *)

Module CodecFacts.
Import Codec KeyPopover Range RangeFacts JSFacts ClassifierFacts.

Lemma modMask_roundtrip_all :
  all2 32 256 (fun mask key =>
    (mask =? 0)
    || (WrapperMode_eqb (classify (buildModMaskKeycode mask key)) modMask
        && (extractModMask (buildModMaskKeycode mask key) =? mask)
        && (extractBasicKey (buildModMaskKeycode mask key) =? key))) = true.
Proof. vm_compute. reflexivity. Qed.

(** C3. For every mask in 1..31 and key in 0..255 the keycode built by
    [buildModMaskKeycode] is classified ModifierMask, [extractModMask] gives
    back the mask and [extractBasicKey] the key. *)
Theorem modMask_build_extract (mask key : Z) :
  1 <= mask <= 31 ->
  0 <= key <= 255 ->
  classify (buildModMaskKeycode mask key) = modMask /\
  extractModMask (buildModMaskKeycode mask key) = mask /\
  extractBasicKey (buildModMaskKeycode mask key) = key.
Proof.
  intros Hm Hk.
  pose proof (all2_spec 32 256 _ modMask_roundtrip_all mask key
                        ltac:(lia) ltac:(lia)) as H.
  cbv beta in H.
  apply orb_true_iff in H. destruct H as [H | H]; [lia |].
  apply andb_true_iff in H. destruct H as [H Hkey].
  apply andb_true_iff in H. destruct H as [Hc Hmask].
  apply WrapperMode_eqb_eq in Hc.
  repeat split; [exact Hc | lia | lia].
Qed.

Lemma modMask_build_extract_witness :
  classify (buildModMaskKeycode 2 4) = modMask /\
  extractModMask (buildModMaskKeycode 2 4) = 2 /\
  extractBasicKey (buildModMaskKeycode 2 4) = 4.
Proof. apply (modMask_build_extract 2 4); lia. Defined.

(** C4. With a zero modifier mask both [buildModMaskKeycode] and
    [buildModTapKeycode] return the plain basic key, for every key in
    0..255. *)
Theorem zero_mask_is_basic_key (key : Z) :
  0 <= key <= 255 ->
  buildModMaskKeycode 0 key = key /\ buildModTapKeycode 0 key = key.
Proof.
  intros Hk. unfold buildModMaskKeycode, buildModTapKeycode. simpl.
  rewrite band_0xff, Z.mod_small by lia. split; reflexivity.
Qed.

Lemma zero_mask_is_basic_key_witness :
  buildModMaskKeycode 0 0x2c = 0x2c /\ buildModTapKeycode 0 0x2c = 0x2c.
Proof. apply (zero_mask_is_basic_key 0x2c); lia. Defined.

End CodecFacts.

(* ------------------------------------------------------------------ *)
(** ** The round trip through build and extract *)

Module FieldCodecFacts.
Import Codec KeyPopover FieldCodec Range RangeFacts JSFacts ClassifierFacts.

Lemma band_0x0f_id (x : Z) : 0 <= x < 16 -> x .& 0x0f = x.
Proof. intros H. rewrite band_0x0f. apply Z.mod_small, H. Qed.

Lemma band_0x1f_id (x : Z) : 0 <= x < 32 -> x .& 0x1f = x.
Proof. intros H. rewrite band_0x1f. apply Z.mod_small, H. Qed.

Lemma band_0xff_id (x : Z) : 0 <= x < 256 -> x .& 0xff = x.
Proof. intros H. rewrite band_0xff. apply Z.mod_small, H. Qed.

(** The builders see their arguments only through the masked fields. *)
Lemma buildLTKeycode_masked (layer key : Z) :
  buildLTKeycode layer key = buildLTKeycode (layer .& 0x0f) (key .& 0xff).
Proof.
  unfold buildLTKeycode.
  rewrite (band_0x0f_id (layer .& 0x0f)) by apply band_0x0f_range.
  rewrite (band_0xff_id (key .& 0xff)) by apply band_0xff_range.
  reflexivity.
Qed.

Lemma buildSHTKeycode_masked (key : Z) :
  buildSHTKeycode key = buildSHTKeycode (key .& 0xff).
Proof.
  unfold buildSHTKeycode.
  rewrite (band_0xff_id (key .& 0xff)) by apply band_0xff_range.
  reflexivity.
Qed.

Lemma buildLMKeycode_masked (layer mod_ : Z) :
  buildLMKeycode layer mod_ = buildLMKeycode (layer .& 0x0f) (mod_ .& 0x1f).
Proof.
  unfold buildLMKeycode.
  rewrite (band_0x0f_id (layer .& 0x0f)) by apply band_0x0f_range.
  rewrite (band_0x1f_id (mod_ .& 0x1f)) by apply band_0x1f_range.
  reflexivity.
Qed.

(** The codec run over whole field ranges. *)
Lemma lt_fields_all :
  all2 16 256 (fun l k =>
    (extractLTLayer (buildLTKeycode l k) =? l)
    && (extractBasicKey (buildLTKeycode l k) =? k)) = true.
Proof. vm_compute. reflexivity. Qed.

Lemma shT_fields_all :
  all1 256 (fun k => extractBasicKey (buildSHTKeycode k) =? k) = true.
Proof. vm_compute. reflexivity. Qed.

Lemma lm_fields_all :
  all2 16 32 (fun l m =>
    Bool.eqb ((extractLMLayer (buildLMKeycode l m) =? l)
              && (extractLMMod (buildLMKeycode l m) =? m))
             (Bool.eqb (l .& 1 =? 0) (m .& 0x10 =? 0))) = true.
Proof. vm_compute. reflexivity. Qed.

Lemma modMask_fields_all :
  all2 32 256 (fun m k =>
    negb (WrapperMode_eqb (classify ((m .<< 8) .| k)) modMask)
    || ((extractModMask ((m .<< 8) .| k) =? m)
        && (extractBasicKey ((m .<< 8) .| k) =? k))) = true.
Proof. vm_compute. reflexivity. Qed.

Lemma modTap_fields_all :
  all2 32 256 (fun m k =>
    negb (WrapperMode_eqb (classify (0x6000 .| (m .<< 8) .| k)) modTap)
    || ((extractModMask (0x6000 .| (m .<< 8) .| k) =? m)
        && (extractBasicKey (0x6000 .| (m .<< 8) .| k) =? k))) = true.
Proof. vm_compute. reflexivity. Qed.

Lemma both_eqb (a b c d : Z) :
  (a =? b) && (c =? d) = true -> a = b /\ c = d.
Proof.
  intros H. apply andb_true_iff in H. destruct H as [H1 H2].
  apply Z.eqb_eq in H1, H2. split; assumption.
Qed.

Lemma lt_fields (layer key : Z) :
  extractLTLayer (buildLTKeycode layer key) = layer .& 0x0f /\
  extractBasicKey (buildLTKeycode layer key) = key .& 0xff.
Proof.
  rewrite buildLTKeycode_masked.
  apply both_eqb.
  exact (all2_spec 16 256 _ lt_fields_all _ _
           (band_0x0f_range layer) (band_0xff_range key)).
Qed.

Lemma shT_fields (key : Z) :
  extractBasicKey (buildSHTKeycode key) = key .& 0xff.
Proof.
  rewrite buildSHTKeycode_masked.
  apply Z.eqb_eq.
  exact (all1_spec 256 _ shT_fields_all _ (band_0xff_range key)).
Qed.

(** Masking a field first does not change what a narrower test sees. *)
Lemma band_0x0f_bit0 (x : Z) : (x .& 0x0f) .& 1 = x .& 1.
Proof.
  change 0x0f with (Z.ones 4). rewrite band_band_ones by lia. reflexivity.
Qed.

Lemma band_0x1f_bit4 (x : Z) : (x .& 0x1f) .& 0x10 = x .& 0x10.
Proof.
  change 0x1f with (Z.ones 5). rewrite band_band_ones by lia. reflexivity.
Qed.

(** The LayerMod fields read back as they were packed exactly when they
    agree on the bit they share. *)
Lemma lm_fields (layer mod_ : Z) :
  (extractLMLayer (buildLMKeycode layer mod_) =? layer .& 0x0f)
  && (extractLMMod (buildLMKeycode layer mod_) =? mod_ .& 0x1f)
  = Bool.eqb (layer .& 1 =? 0) (mod_ .& 0x10 =? 0).
Proof.
  rewrite buildLMKeycode_masked.
  pose proof (all2_spec 16 32 _ lm_fields_all _ _
                (band_0x0f_range layer) (band_0x1f_range mod_)) as H.
  cbv beta in H. apply eqb_prop in H.
  rewrite band_0x0f_bit0, band_0x1f_bit4 in H. exact H.
Qed.

Lemma basic_key_kind (k : Z) (kind : WrapperMode) :
  0 <= k < 256 -> classify k = kind -> kind = none.
Proof.
  intros Hk <-. pose proof (classify_sound k) as H.
  destruct (classify k); try reflexivity; exfalso; revert H;
    unfold isLTKeycode, isSHTKeycode, isLMKeycode, isModTapKeycode,
      isModMaskKeycode;
    rewrite andb_true_iff, ?Z.leb_le, ?Z.ltb_lt; lia.
Qed.

Lemma modMask_fields (mask key : Z) :
  classify (buildModMaskKeycode mask key) = modMask ->
  extractModMask (buildModMaskKeycode mask key) = mask .& 0x1f /\
  extractBasicKey (buildModMaskKeycode mask key) = key .& 0xff.
Proof.
  unfold buildModMaskKeycode. destruct (mask =? 0).
  - intros H. apply basic_key_kind in H; [discriminate | apply band_0xff_range].
  - intros Hc.
    pose proof (all2_spec 32 256 _ modMask_fields_all _ _
                  (band_0x1f_range mask) (band_0xff_range key)) as H.
    cbv beta in H. apply orb_true_iff in H. destruct H as [H | H].
    + rewrite Hc in H. discriminate H.
    + apply both_eqb, H.
Qed.

Lemma modTap_fields (mask key : Z) :
  classify (buildModTapKeycode mask key) = modTap ->
  extractModMask (buildModTapKeycode mask key) = mask .& 0x1f /\
  extractBasicKey (buildModTapKeycode mask key) = key .& 0xff.
Proof.
  unfold buildModTapKeycode. destruct (mask =? 0).
  - intros H. apply basic_key_kind in H; [discriminate | apply band_0xff_range].
  - intros Hc.
    pose proof (all2_spec 32 256 _ modTap_fields_all _ _
                  (band_0x1f_range mask) (band_0xff_range key)) as H.
    cbv beta in H. apply orb_true_iff in H. destruct H as [H | H].
    + rewrite Hc in H. discriminate H.
    + apply both_eqb, H.
Qed.


(** With both fields inside their widths, [buildLMKeycode 1 2] reads back
    as layer 1 with modifier 0x12: the layer's bit 0 shows in the modifier.
    [buildLMKeycode 1 0x12], where the modifier has that bit as well, reads
    back as it was built. *)
Lemma layerMod_shared_bit_example :
  in_width (LayerModF 1 2) = true /\
  classify (build (LayerModF 1 2)) = lm /\
  extract lm (build (LayerModF 1 2)) = Some (LayerModF 1 0x12) /\
  extract lm (build (LayerModF 1 0x12)) = Some (LayerModF 1 0x12).
Proof. repeat split; reflexivity. Qed.

(** C2, as stated: over all integer field values, extracting from a built
    keycode that classifies as its kind gives the field values back.
    [buildLTKeycode 16 4] is 0x4004, a LayerTap keycode, and reads back as
    layer 0. *)
Lemma roundtrip_fails_beyond_field_width :
  ~ (forall f : Fields,
        classify (build f) = kind_of f ->
        extract (kind_of f) (build f) = Some f).
Proof.
  intros H. specialize (H (LayerTapF 16 4) eq_refl).
  vm_compute in H. discriminate H.
Qed.

Lemma truncate_in_width (f : Fields) : in_width f = true -> truncate f = f.
Proof.
  unfold in_width, is_u4, is_u5, is_u8.
  destruct f; cbn [truncate]; intros H;
    repeat (apply andb_true_iff in H; destruct H as [H ?]);
    repeat match goal with
           | Hb : (_ <=? _) = true |- _ => apply Z.leb_le in Hb
           end;
    rewrite ?band_0x0f_id, ?band_0x1f_id, ?band_0xff_id by lia;
    reflexivity.
Qed.

(** C2, amended. For every wrapper kind and all integer field values, if
    the built keycode classifies as that kind then the kind's extract
    functions return the fields masked to their widths (layer & 0x0F,
    mask & 0x1F, key & 0xFF), which are the fields themselves when these lie
    within their widths.  For LayerMod this holds exactly for the fields
    that agree on the bit the layer and the modifier share (bit 0 of the
    layer, bit 4 of the modifier, both set or both clear); when the two
    differ, the fields read back are not the masked ones. *)
Theorem build_extract_roundtrip_masked (f : Fields) :
  classify (build f) = kind_of f ->
  (lm_shared_bit_agrees f = true ->
   extract (kind_of f) (build f) = Some (truncate f)) /\
  (lm_shared_bit_agrees f = false ->
   extract (kind_of f) (build f) <> Some (truncate f)) /\
  (in_width f = true -> truncate f = f).
Proof.
  intros Hkind. split; [| split; [| apply truncate_in_width]].
  - intros Hagree.
    destruct f; cbn [kind_of build extract truncate] in *.
    + destruct (modMask_fields mask key Hkind) as [-> ->]. reflexivity.
    + destruct (modTap_fields mask key Hkind) as [-> ->]. reflexivity.
    + destruct (lt_fields layer key) as [-> ->]. reflexivity.
    + rewrite shT_fields. reflexivity.
    + cbn [lm_shared_bit_agrees] in Hagree.
      pose proof (lm_fields layer mod_) as E. rewrite Hagree in E.
      apply both_eqb in E. destruct E as [-> ->]. reflexivity.
  - intros Hdiffer.
    destruct f; cbn [lm_shared_bit_agrees] in Hdiffer; try discriminate Hdiffer.
    cbn [kind_of build extract truncate].
    pose proof (lm_fields layer mod_) as E. rewrite Hdiffer in E.
    intros Heq. injection Heq as H1 H2.
    rewrite H1, H2, !Z.eqb_refl in E. discriminate E.
Qed.

Lemma build_extract_roundtrip_masked_witness :
  extract lt (build (LayerTapF 18 0x104)) = Some (LayerTapF 2 4) /\
  extract lm (build (LayerModF 2 3)) = Some (LayerModF 2 3) /\
  extract lm (build (LayerModF 1 0x12)) = Some (LayerModF 1 0x12) /\
  extract lm (build (LayerModF 1 2)) <> Some (LayerModF 1 2).
Proof.
  split; [| split; [| split]].
  - exact (proj1 (build_extract_roundtrip_masked (LayerTapF 18 0x104) eq_refl)
                 eq_refl).
  - exact (proj1 (build_extract_roundtrip_masked (LayerModF 2 3) eq_refl)
                 eq_refl).
  - exact (proj1 (build_extract_roundtrip_masked (LayerModF 1 0x12) eq_refl)
                 eq_refl).
  - exact (proj1 (proj2 (build_extract_roundtrip_masked (LayerModF 1 2) eq_refl))
                 eq_refl).
Defined.

End FieldCodecFacts.

(* ------------------------------------------------------------------ *)
(** ** Names: serialize, resolve, deserialize *)

Module ResolverFacts.
Import Codec KeyPopover Resolver.

(** C8. [buildLMKeycode 0 0] is 0x7000, a LayerMod keycode of its own (not
    the basic key 0), and is rendered "LM0(0x0)", where "0x0" is no catalog
    name; [buildLMKeycode 0 2] is 0x7002, rendered "LM0(MOD_LSFT)", and
    [extractLMMod] reads 2 from it. *)
Theorem layerMod_layer0_codes_and_names :
  buildLMKeycode 0 0 = 0x7000 /\
  classify (buildLMKeycode 0 0) = lm /\
  buildLMKeycode 0 0 <> 0 /\
  serialize (buildLMKeycode 0 0) = "LM0(0x0)" /\
  Catalog.is_name "0x0" = false /\
  buildLMKeycode 0 2 = 0x7002 /\
  serialize (buildLMKeycode 0 2) = "LM0(MOD_LSFT)" /\
  Catalog.is_name "MOD_LSFT" = true /\
  extractLMMod 0x7002 = 2.
Proof. repeat split; try reflexivity. discriminate. Qed.

(** [resolve] answers 0 for every name outside its own table. *)
Lemma resolve_default (name : string) :
  ~ In name ["QMK_LM_MASK"; "QK_LAYER_TAP"; "SH_T(kc)"; "KC_A"; "KC_B";
             "KC_SPACE"; "KC_ENTER"; "MOD_LSFT"; "MOD_LCTL"] ->
  resolve name = 0.
Proof.
  intros Hout. unfold resolve.
  repeat match goal with
         | |- context [String.eqb name ?s] =>
             destruct (String.eqb_spec name s) as [-> | _];
             [exfalso; apply Hout; simpl; tauto |]
         end.
  reflexivity.
Qed.

Lemma deserialize_default (val : string) :
  ~ In val ["KC_A"; "KC_B"; "KC_SPACE"] -> deserialize val = 0.
Proof.
  intros Hout. unfold deserialize.
  repeat match goal with
         | |- context [String.eqb val ?s] =>
             destruct (String.eqb_spec val s) as [-> | _];
             [exfalso; apply Hout; simpl; tauto |]
         end.
  reflexivity.
Qed.

Lemma is_name_In (name : string) :
  Catalog.is_name name = true <-> In name Catalog.names.
Proof.
  unfold Catalog.is_name. rewrite existsb_exists. split.
  - intros [s [Hs He]]. apply String.eqb_eq in He. subst. exact Hs.
  - intros H. exists name. split; [exact H | apply String.eqb_refl].
Qed.

(** C7, as stated: a name that is no catalog id or alias resolves to 0.
    "QK_LAYER_TAP" is no catalog name, and [resolve] answers 0x4000 for it. *)
Lemma resolve_non_catalog_name_nonzero :
  ~ (forall name : string,
        Catalog.is_name name = false ->
        resolve name = 0 /\ deserialize name = 0).
Proof.
  intros H. specialize (H "QK_LAYER_TAP" eq_refl).
  destruct H as [H _]. discriminate H.
Qed.

(** C7, amended. [resolve] and [deserialize] are total functions into the
    integers; a name that is no catalog id or alias and is none of the
    protocol names "QMK_LM_MASK", "QK_LAYER_TAP", "SH_T(kc)" resolves to 0,
    and [deserialize] gives 0 for every name that is no catalog id or
    alias. *)
Theorem resolve_unknown_name_is_zero (name : string) :
  Catalog.is_name name = false ->
  (~ In name protocol_names -> resolve name = 0) /\ deserialize name = 0.
Proof.
  intros Hcat.
  assert (Hnot : ~ In name Catalog.names).
  { intros Hin. apply is_name_In in Hin. congruence. }
  split.
  - intros Hproto. apply resolve_default. intros Hin.
    simpl in Hin, Hproto.
    destruct Hin as [<- | [<- | [<- | Hin]]]; [tauto | tauto | tauto |].
    apply Hnot. simpl. simpl in Hin. tauto.
  - apply deserialize_default. intros Hin.
    apply Hnot. simpl. simpl in Hin. tauto.
Qed.

Lemma resolve_unknown_name_is_zero_witness :
  Catalog.is_name "KC_Z" = false /\
  (~ In "KC_Z" protocol_names -> resolve "KC_Z" = 0) /\ deserialize "KC_Z" = 0.
Proof.
  split; [reflexivity |].
  apply (resolve_unknown_name_is_zero "KC_Z"). reflexivity.
Defined.

End ResolverFacts.

(* ------------------------------------------------------------------ *)
(** ** Inner-byte editing *)

Module PopoverTabCodeFacts.
Import Codec PopoverTabCode.

(** C6. In masked editing of 0x5104 the inner byte is 0x04, and putting 0x2C
    in its place while keeping the outer tag bits gives 0x512C. *)
Theorem inner_byte_of_0x5104 :
  extractBasicKey 0x5104 = 0x04 /\
  applyInnerByte 0x5104 0x2C = 0x512C /\
  applyInnerByte 0x5104 0x2C .& 0xff00 = 0x5104 .& 0xff00 /\
  extractBasicKey (applyInnerByte 0x5104 0x2C) = 0x2C.
Proof. repeat split; reflexivity. Qed.

End PopoverTabCodeFacts.

(* ------------------------------------------------------------------ *)
(** ** Mode switches of the popover *)

Module KeyPopoverFacts.
Import Codec KeyPopover.

(** A keycode in the LayerMod range opens the popover in [lm] mode. *)
Lemma initWrapperMode_lm (code : Z) :
  isLMKeycode code = true -> initWrapperMode false code = lm.
Proof.
  unfold isLMKeycode. intros H.
  apply andb_true_iff in H. destruct H as [Hlo Hhi].
  apply Z.leb_le in Hlo. apply Z.leb_le in Hhi.
  unfold initWrapperMode, isLTKeycode, isSHTKeycode, isLMKeycode.
  ClassifierFacts.range_cases.
Qed.

(** In [lm] mode the basic key a switch starts from is 0 and no modifier
    mask is carried over, whatever the current keycode holds. *)
Lemma handleModeSwitch_from_lm (p : Props) (s : State) (newMode : WrapperMode) :
  wrapperMode s = lm ->
  fst (handleModeSwitch p s newMode) =
  match newMode with
  | lm => if currentKeycode p =? 0 then [] else [onRawKeycodeSelect 0]
  | lt => [onRawKeycodeSelect (buildLTKeycode (selectedLayer s) 0)]
  | shT => [onRawKeycodeSelect (buildSHTKeycode 0)]
  | modTap => [onRawKeycodeSelect (buildModTapKeycode 0 0)]
  | modMask => [onRawKeycodeSelect (buildModMaskKeycode 0 0)]
  | none => if currentKeycode p =? 0 then [] else [onRawKeycodeSelect 0]
  end.
Proof.
  intros Hlm. unfold handleModeSwitch, preservedMask. rewrite Hlm.
  destruct newMode; cbv [WrapperMode_eqb fst]; try reflexivity;
    rewrite (Z.eqb_sym 0); destruct (currentKeycode p =? 0); reflexivity.
Qed.

(** C5. From a LayerMod keycode, with the popover in [lm] mode, every mode
    switch reports a keycode built on basic key 0: to LT it is
    [buildLTKeycode selectedLayer 0], to SH_T it is 0x5600, to modTap and to
    modMask it is 0, and toggling LM off reports 0; the modifier bits of the
    LM keycode never show up as a basic key. *)
Theorem leaving_lm_rebuilds_on_basic_key_zero (p : Props) (s : State) :
  isLMKeycode (currentKeycode p) = true ->
  wrapperMode s = lm ->
  fst (handleModeSwitch p s lt)
    = [onRawKeycodeSelect (buildLTKeycode (selectedLayer s) 0)] /\
  fst (handleModeSwitch p s shT) = [onRawKeycodeSelect 0x5600] /\
  fst (handleModeSwitch p s modTap) = [onRawKeycodeSelect 0] /\
  fst (handleModeSwitch p s modMask) = [onRawKeycodeSelect 0] /\
  fst (handleModeSwitch p s lm) = [onRawKeycodeSelect 0] /\
  wrapperMode (snd (handleModeSwitch p s lm)) = none.
Proof.
  intros Hcode Hlm.
  assert (Hnz : (currentKeycode p =? 0) = false).
  { unfold isLMKeycode in Hcode. apply andb_true_iff in Hcode.
    destruct Hcode as [Hlo _]. apply Z.leb_le in Hlo.
    apply Z.eqb_neq. lia. }
  rewrite !(handleModeSwitch_from_lm p s _ Hlm), Hnz.
  repeat split.
  unfold handleModeSwitch. rewrite Hlm. reflexivity.
Qed.

Lemma leaving_lm_rebuilds_on_basic_key_zero_witness :
  fst (handleModeSwitch (mkProps 0x7002 false false)
                        (initState (mkProps 0x7002 false false)) lt)
    = [onRawKeycodeSelect 0x4000] /\
  fst (handleModeSwitch (mkProps 0x7002 false false)
                        (initState (mkProps 0x7002 false false)) shT)
    = [onRawKeycodeSelect 0x5600].
Proof.
  pose proof (leaving_lm_rebuilds_on_basic_key_zero
                (mkProps 0x7002 false false)
                (initState (mkProps 0x7002 false false))
                eq_refl eq_refl) as H.
  split; [exact (proj1 H) | exact (proj1 (proj2 H))].
Defined.

End KeyPopoverFacts.

(* ------------------------------------------------------------------ *)
(** ** The modifier strip *)

Module ModifierCheckboxStripFacts.
Import Codec KeyPopover ModifierCheckboxStrip Range RangeFacts JSFacts.

Lemma land_to_int32_ones (x n : Z) :
  0 <= n <= 32 -> Z.land (JS.to_int32 x) (Z.ones n) = Z.land x (Z.ones n).
Proof.
  intros Hn. rewrite !Z.land_ones by lia. apply to_int32_mod_pow2, Hn.
Qed.

Lemma toggle_bits (modMask bit : Z) (right : bool) :
  exists t : Z,
    toggle modMask bit right =
    Z.land (if right && negb (Z.land t 15 =? 0) then Z.lor t 16 else Z.land t (-17)) 31.
Proof.
  exists (JS.to_int32 (modMask .^ (1 .<< bit))).
  unfold toggle. cbv zeta.
  set (toggled := modMask .^ (1 .<< bit)).
  change RIGHT_BIT with 16. change MOD_BITS_MASK with 15. change FULL_MASK with 31.
  change (JS.bnot 16) with (-17).
  unfold JS.band at 1.
  change (JS.to_int32 31) with (Z.ones 5).
  rewrite land_to_int32_ones by lia.
  unfold JS.band, JS.bor.
  change (JS.to_int32 15) with 15. change (JS.to_int32 16) with 16.
  change (JS.to_int32 (-17)) with (-17).
  reflexivity.
Qed.

Lemma toggle_range (modMask bit : Z) (right : bool) :
  0 <= toggle modMask bit right <= 0x1F.
Proof.
  unfold toggle. cbv zeta. change FULL_MASK with 0x1f.
  match goal with
  | |- 0 <= ?w .& _ <= _ => pose proof (band_0x1f_range w)
  end.
  lia.
Qed.

Lemma band_small (x m : Z) :
  0 <= x < 2 ^ 31 -> 0 <= m < 2 ^ 31 -> x .& m = Z.land x m.
Proof.
  intros Hx Hm. unfold JS.band. rewrite !to_int32_small by lia. reflexivity.
Qed.

(** The mask 0x10 (right-hand flag alone) packed as a ModTap keycode lies in
    the LayerMod range, whatever the key. *)
Lemma modTap_right_flag_alone_all :
  all1 256 (fun k =>
    WrapperMode_eqb (classify (0x6000 .| ((0x10 .& 0x1f) .<< 8) .| k)) lm) = true.
Proof. vm_compute. reflexivity. Qed.

Lemma modTap_right_flag_alone_is_lm (key : Z) :
  classify (buildModTapKeycode 0x10 key) = lm.
Proof.
  unfold buildModTapKeycode. change (0x10 =? 0) with false. cbv iota.
  apply ClassifierFacts.WrapperMode_eqb_eq.
  exact (all1_spec 256 _ modTap_right_flag_alone_all _ (band_0xff_range key)).
Qed.

(** The right-hand flag survives only next to a modifier bit. *)
Lemma toggle_flag_needs_modifier (modMask bit : Z) (right : bool) :
  toggle modMask bit right .& RIGHT_BIT <> 0 ->
  toggle modMask bit right .& MOD_BITS_MASK <> 0.
Proof.
  pose proof (toggle_range modMask bit right) as Hr.
  change RIGHT_BIT with 16. change MOD_BITS_MASK with 15.
  rewrite !band_small by lia.
  destruct (toggle_bits modMask bit right) as [t ->].
  rewrite <- !Z.land_assoc.
  change (Z.land 31 16) with 16. change (Z.land 31 15) with 15.
  destruct (right && negb (Z.land t 15 =? 0)) eqn:Hc.
  - intros _. apply andb_true_iff in Hc. destruct Hc as [_ Hm].
    apply negb_true_iff, Z.eqb_neq in Hm.
    rewrite Z.land_lor_distr_l. change (Z.land 16 15) with 0.
    rewrite Z.lor_0_r. exact Hm.
  - intros Hbit. exfalso. apply Hbit.
    rewrite <- Z.land_assoc. change (Z.land (-17) 16) with 0.
    apply Z.land_0_r.
Qed.

Lemma toggle_not_right_flag_alone (modMask bit : Z) (right : bool) :
  toggle modMask bit right <> 0x10.
Proof.
  intros Heq. pose proof (toggle_flag_needs_modifier modMask bit right) as H.
  rewrite Heq in H. apply H; [discriminate | reflexivity].
Qed.

(** C9. Whatever mask the strip is given and whichever button is toggled,
    the mask handed to [onChange] lies in 0..0x1F and has its right-hand flag
    (bit 4) set only together with one of the four modifier bits; so the
    strip never hands out 0x10, the mask whose ModTap keycode would fall in
    the LayerMod range. *)
Theorem toggle_mask_well_formed (modMask bit : Z) (right : bool) :
  0 <= toggle modMask bit right <= 0x1F /\
  (toggle modMask bit right .& RIGHT_BIT <> 0 ->
   toggle modMask bit right .& MOD_BITS_MASK <> 0) /\
  toggle modMask bit right <> 0x10 /\
  (forall key, classify (buildModTapKeycode 0x10 key) = lm).
Proof.
  split; [apply toggle_range |].
  split; [apply toggle_flag_needs_modifier |].
  split; [apply toggle_not_right_flag_alone |].
  exact modTap_right_flag_alone_is_lm.
Qed.

Lemma toggle_mask_well_formed_witness :
  toggle 0x01 1 true = 0x13 /\
  toggle 0x01 1 true .& RIGHT_BIT <> 0 /\
  toggle 0x01 1 true .& MOD_BITS_MASK <> 0.
Proof.
  split; [reflexivity |].
  split; [vm_compute; discriminate |].
  apply (proj1 (proj2 (toggle_mask_well_formed 0x01 1 true))).
  vm_compute. discriminate.
Defined.

(** The same for what a click reports: a disabled button reports nothing,
    an enabled one reports [toggle]. *)
Corollary click_never_reports_right_flag_alone (modMask bit : Z) (right : bool) :
  click modMask bit right <> Some 0x10.
Proof.
  unfold click. destruct (disabled modMask right); [discriminate |].
  intros H. injection H as H.
  exact (toggle_not_right_flag_alone modMask bit right H).
Qed.

End ModifierCheckboxStripFacts.

(* ------------------------------------------------------------------ *)
(** ** Pages of the PDF export *)

Module KeymapPdfFacts.
Import KeymapPdf.
Local Open Scope list_scope.

Section Pages.

Variable number : Type.
Variable zero infinity neg_infinity : number.
Variable add sub : number -> number -> number.
Variable lt_num gt_num : number -> number -> bool.
Variable is_zero : number -> bool.
Variable LayoutOptions : Type.
Variable filterVisibleKeys :
  list (KleKey.t number) -> LayoutOptions -> list (KleKey.t number).
Variable sanitizeLabel trim : string -> string.
Variable timestamp : string.

Local Notation "'exportPdf'" :=
  (generateKeymapPdf zero infinity neg_infinity add sub lt_num gt_num is_zero
                     filterVisibleKeys sanitizeLabel trim timestamp).
Local Notation "'degenerateBounds'" :=
  (degenerate zero infinity neg_infinity add sub lt_num gt_num is_zero
              filterVisibleKeys).
Local Notation "'pageOfLayer'" :=
  (layerPage filterVisibleKeys sanitizeLabel trim timestamp).
Local Notation "'footerOf'" := (footerText sanitizeLabel trim timestamp).

Implicit Types (d : Doc number) (pg : Page number) (ps : list (Page number)).

Lemma on_page_middle (f : Page number -> Page number) ps pg ps' :
  on_page (List.length ps) f (ps ++ pg :: ps') = ps ++ f pg :: ps'.
Proof.
  induction ps as [| q ps IH]; simpl; [reflexivity |].
  rewrite IH. reflexivity.
Qed.

(** Drawing on the last page, which is the current one while layers are
    drawn. *)
Lemma draw_on_last (fmt : PageFormat number) ps pg (op : Draw number) :
  draw op (mkDoc fmt (ps ++ [pg]) (List.length ps))
  = mkDoc fmt (ps ++ [pg ++ [op]]) (List.length ps).
Proof. unfold draw. simpl. rewrite on_page_middle. reflexivity. Qed.

Lemma draw_each_on_last {A : Type} (g : A -> Draw number) (xs : list A) :
  forall (fmt : PageFormat number) ps pg,
    fold_left (fun d x => draw (g x) d) xs (mkDoc fmt (ps ++ [pg]) (List.length ps))
    = mkDoc fmt (ps ++ [pg ++ map g xs]) (List.length ps).
Proof.
  induction xs as [| x xs IH]; intros fmt ps pg; simpl.
  - rewrite app_nil_r. reflexivity.
  - rewrite draw_on_last, IH, <- app_assoc. reflexivity.
Qed.

(** One turn of the layer loop on a document whose current page is the
    last: layer 0 fills the page the document was created with, a later
    layer fills a page of its own. *)
Lemma drawLayer_same_page (normalKeys encoderKeys : list (KleKey.t number))
      (fmt : PageFormat number) ps pg :
  drawLayer normalKeys encoderKeys (mkDoc fmt (ps ++ [pg]) (List.length ps)) 0
  = mkDoc fmt (ps ++ [pg ++ layerBody normalKeys encoderKeys 0]) (List.length ps).
Proof.
  unfold drawLayer. change (0 <? 0) with false. cbv beta iota zeta.
  rewrite !draw_on_last, !draw_each_on_last.
  unfold layerBody. rewrite <- !app_assoc. reflexivity.
Qed.

Lemma drawLayer_first (normalKeys encoderKeys : list (KleKey.t number))
      (fmt : PageFormat number) :
  drawLayer normalKeys encoderKeys (newDoc fmt) 0
  = mkDoc fmt [layerBody normalKeys encoderKeys 0] 0.
Proof.
  exact (drawLayer_same_page normalKeys encoderKeys fmt [] []).
Qed.

Lemma drawLayer_next (normalKeys encoderKeys : list (KleKey.t number))
      (fmt : PageFormat number) ps (cur : nat) (layer : Z) :
  0 < layer ->
  drawLayer normalKeys encoderKeys (mkDoc fmt ps cur) layer
  = mkDoc fmt (ps ++ [layerBody normalKeys encoderKeys layer]) (List.length ps).
Proof.
  intros Hpos. unfold drawLayer.
  apply Z.ltb_lt in Hpos. rewrite Hpos. unfold addPage.
  cbv beta iota zeta. cbn [format pages].
  rewrite !draw_on_last, !draw_each_on_last. reflexivity.
Qed.

Lemma layer_indices_succ (n : nat) :
  layer_indices (Z.of_nat (S n)) = layer_indices (Z.of_nat n) ++ [Z.of_nat n].
Proof.
  unfold layer_indices. rewrite !Nat2Z.id, seq_S, map_app. reflexivity.
Qed.

Lemma length_layer_indices (n : Z) : List.length (layer_indices n) = Z.to_nat n.
Proof. unfold layer_indices. rewrite length_map, length_seq. reflexivity. Qed.

(** The layer loop leaves one page per layer, in layer order. *)
Lemma layer_loop (normalKeys encoderKeys : list (KleKey.t number))
      (fmt : PageFormat number) (n : nat) :
  fold_left (drawLayer normalKeys encoderKeys)
            (layer_indices (Z.of_nat (S n))) (newDoc fmt)
  = mkDoc fmt (map (layerBody normalKeys encoderKeys)
                   (layer_indices (Z.of_nat (S n)))) n.
Proof.
  induction n as [| n IH].
  - simpl. rewrite drawLayer_first. reflexivity.
  - rewrite (layer_indices_succ (S n)), fold_left_app, IH. cbn [fold_left].
    rewrite drawLayer_next by lia.
    rewrite map_app, length_map, length_layer_indices, Nat2Z.id. reflexivity.
Qed.

(** The footer loop visits the pages in order and signs each. *)
Lemma footer_loop (t : string) (rest : list (Page number)) :
  forall d (done : list (Page number)),
    pages d = done ++ rest ->
    pages (fold_left (fun d p => draw (Footer t) (setPage p d))
                     (seq (S (List.length done)) (List.length rest)) d)
    = done ++ map (fun pg => pg ++ [Footer t]) rest.
Proof.
  induction rest as [| pg rest IH]; intros d done Hd.
  - simpl. exact Hd.
  - cbn [List.length seq fold_left].
    specialize (IH (draw (Footer t) (setPage (S (List.length done)) d))
                   (done ++ [pg ++ [Footer t]])).
    rewrite length_app, Nat.add_1_r in IH. rewrite IH.
    + rewrite <- app_assoc. reflexivity.
    + unfold draw, setPage. simpl. rewrite Nat.sub_0_r, Hd, on_page_middle.
      rewrite <- app_assoc. reflexivity.
Qed.

Lemma in_layer_page_footer (input : PdfExportInput number LayoutOptions) (layer : Z) :
  In (Footer (footerOf input)) (pageOfLayer input layer).
Proof. unfold layerPage. apply in_or_app. right. left. reflexivity. Qed.

(** Without visible keys the bounding box is the zero box. *)
Lemma no_visible_keys_degenerate (input : PdfExportInput number LayoutOptions) :
  is_zero zero = true ->
  filterVisibleKeys (keys input) (layoutOptions input) = [] ->
  degenerateBounds input = true.
Proof.
  intros Hz Hnone. unfold degenerate. rewrite Hnone. simpl. rewrite Hz.
  reflexivity.
Qed.

(** C10. With at least one layer and a bounding box of non-zero width and
    height, the exported document has exactly [layers] pages: page [i] holds
    the header, border, keys and encoders of layer [i] and ends with the
    footer.  With a bounding box of zero width or zero height the export is
    a freshly created landscape A4 document, one blank page, whatever the
    layer count. *)
Theorem generateKeymapPdf_one_page_per_layer
        (input : PdfExportInput number LayoutOptions) :
  (1 <= layers input ->
   degenerateBounds input = false ->
   pages (exportPdf input)
     = map (pageOfLayer input) (layer_indices (layers input)) /\
   Z.of_nat (getNumberOfPages (exportPdf input)) = layers input /\
   Forall (fun pg => In (Footer (footerOf input)) pg) (pages (exportPdf input)))
  /\
  (degenerateBounds input = true ->
   exportPdf input = newDoc A4Landscape /\
   getNumberOfPages (exportPdf input) = 1%nat /\
   pages (exportPdf input) = [[]]).
Proof.
  split.
  - intros Hlayers Hbox.
    assert (Hpages : pages (exportPdf input)
                     = map (pageOfLayer input) (layer_indices (layers input))).
    { unfold generateKeymapPdf. unfold degenerate in Hbox. rewrite Hbox.
      replace (layers input) with (Z.of_nat (S (Z.to_nat (layers input - 1))))
        by lia.
      rewrite layer_loop. unfold getNumberOfPages. cbn [pages].
      match goal with
      | |- pages (fold_left _ (seq 1 (List.length ?ps)) ?d) = _ =>
          exact (eq_trans (footer_loop (footerOf input) ps d [] eq_refl)
                          (map_map _ _ _))
      end. }
    split; [exact Hpages | split].
    + unfold getNumberOfPages.
      rewrite Hpages, length_map, length_layer_indices. lia.
    + rewrite Hpages. apply Forall_forall. intros pg Hin.
      apply in_map_iff in Hin. destruct Hin as [layer [<- _]].
      apply in_layer_page_footer.
  - intros Hbox.
    assert (Hdoc : exportPdf input = newDoc A4Landscape).
    { unfold generateKeymapPdf. unfold degenerate in Hbox. rewrite Hbox.
      reflexivity. }
    rewrite Hdoc. repeat split.
Qed.

End Pages.
(** The export on an integer grid: one 1x1 key, two layers. *)
Lemma generateKeymapPdf_one_page_per_layer_witness :
  Z.of_nat
    (getNumberOfPages
       (generateKeymapPdf 0 1000000 (-1000000) Z.add Z.sub Z.ltb Z.gtb
          (Z.eqb 0) (fun ks (_ : unit) => ks) (fun s => s) (fun s => s)
          "2024-01-01 00:00"
          (mkInput "kb" 2 [KleKey.mk 0 0 1 1 0 0 (-1) 0] tt))) = 2.
Proof.
  refine (proj1 (proj2 (proj1
            (generateKeymapPdf_one_page_per_layer
               Z 0 1000000 (-1000000) Z.add Z.sub Z.ltb Z.gtb (Z.eqb 0) unit
               (fun ks _ => ks) (fun s => s) (fun s => s) "2024-01-01 00:00"
               (mkInput "kb" 2 [KleKey.mk 0 0 1 1 0 0 (-1) 0] tt)) _ _)));
    [cbn [layers]; lia | reflexivity].
Defined.

End KeymapPdfFacts.

(* ------------------------------------------------------------------ *)
(** ** Which kind a keycode has, and where the builders land *)

Module KindFacts.
Import Codec KeyPopover Range RangeFacts JSFacts ClassifierFacts FieldCodecFacts.

Lemma isLTKeycode_iff (code : Z) :
  isLTKeycode code = true <-> 0x4000 <= code < 0x5000.
Proof. unfold isLTKeycode. rewrite andb_true_iff, Z.leb_le, Z.ltb_lt. tauto. Qed.

Lemma isSHTKeycode_iff (code : Z) :
  isSHTKeycode code = true <-> 0x5600 <= code <= 0x56ef.
Proof. unfold isSHTKeycode. rewrite andb_true_iff, !Z.leb_le. tauto. Qed.

Lemma isLMKeycode_iff (code : Z) :
  isLMKeycode code = true <-> 0x7000 <= code <= 0x70ff.
Proof. unfold isLMKeycode. rewrite andb_true_iff, !Z.leb_le. tauto. Qed.

Lemma isModTapKeycode_iff (code : Z) :
  isModTapKeycode code = true <-> 0x6000 <= code < 0x8000.
Proof. unfold isModTapKeycode. rewrite andb_true_iff, Z.leb_le, Z.ltb_lt. tauto. Qed.

Lemma isModMaskKeycode_iff (code : Z) :
  isModMaskKeycode code = true <-> 0x0100 <= code <= 0x1fff.
Proof. unfold isModMaskKeycode. rewrite andb_true_iff, !Z.leb_le. tauto. Qed.

(** X1. A keycode is classified by the one range predicate that holds for
    it; two predicates hold together only in 0x7000..0x70FF, where LayerMod
    and ModTap both do and LayerMod is taken.  So [modTap] means: in the
    ModTap range and not in the LayerMod range. *)
Theorem classify_by_predicate (code : Z) :
  (classify code = lt <-> isLTKeycode code = true) /\
  (classify code = shT <-> isSHTKeycode code = true) /\
  (classify code = lm <-> isLMKeycode code = true) /\
  (classify code = modTap <->
     isModTapKeycode code = true /\ isLMKeycode code = false) /\
  (classify code = modMask <-> isModMaskKeycode code = true) /\
  (classify code = none <->
     isLTKeycode code = false /\ isSHTKeycode code = false /\
     isLMKeycode code = false /\ isModTapKeycode code = false /\
     isModMaskKeycode code = false).
Proof.
  unfold classify, initWrapperMode.
  destruct (isLTKeycode code) eqn:E1, (isSHTKeycode code) eqn:E2,
    (isLMKeycode code) eqn:E3, (isModTapKeycode code) eqn:E4,
    (isModMaskKeycode code) eqn:E5;
    try (apply isLTKeycode_iff in E1);
    try (apply isSHTKeycode_iff in E2);
    try (apply isLMKeycode_iff in E3);
    try (apply isModTapKeycode_iff in E4);
    try (apply isModMaskKeycode_iff in E5);
    try lia;
    repeat split; intros; try discriminate; try reflexivity;
    repeat match goal with H : _ /\ _ |- _ => destruct H end;
    try discriminate.
Qed.

(** The kind of a keycode, read off the interval it lies in. *)
Lemma classify_interval (code : Z) :
  (0x4000 <= code <= 0x4fff -> classify code = lt) /\
  (0x5600 <= code <= 0x56ef -> classify code = shT) /\
  (0x7000 <= code <= 0x70ff -> classify code = lm) /\
  (0x6000 <= code <= 0x6fff \/ 0x7100 <= code <= 0x7fff -> classify code = modTap) /\
  (0x0100 <= code <= 0x1fff -> classify code = modMask) /\
  (code <= 0xff \/ 0x2000 <= code <= 0x3fff \/ 0x5000 <= code <= 0x55ff
   \/ 0x56f0 <= code <= 0x5fff \/ 0x8000 <= code -> classify code = none).
Proof.
  unfold classify, initWrapperMode.
  destruct (isLTKeycode code) eqn:E1, (isSHTKeycode code) eqn:E2,
    (isLMKeycode code) eqn:E3, (isModTapKeycode code) eqn:E4,
    (isModMaskKeycode code) eqn:E5;
    try (apply isLTKeycode_iff in E1);
    try (apply isSHTKeycode_iff in E2);
    try (apply isLMKeycode_iff in E3);
    try (apply isModTapKeycode_iff in E4);
    try (apply isModMaskKeycode_iff in E5);
    try (apply not_true_iff_false in E1; rewrite isLTKeycode_iff in E1);
    try (apply not_true_iff_false in E2; rewrite isSHTKeycode_iff in E2);
    try (apply not_true_iff_false in E3; rewrite isLMKeycode_iff in E3);
    try (apply not_true_iff_false in E4; rewrite isModTapKeycode_iff in E4);
    try (apply not_true_iff_false in E5; rewrite isModMaskKeycode_iff in E5);
    repeat split; intros; try reflexivity; exfalso; lia.
Qed.

(** The packed value of each builder, as arithmetic on the masked fields. *)
Lemma buildLT_value_all :
  all2 16 256 (fun l k => buildLTKeycode l k =? 0x4000 + 256 * l + k) = true.
Proof. vm_compute. reflexivity. Qed.

Lemma buildLM_value_all :
  all2 16 32 (fun l m =>
    (0x7000 <=? buildLMKeycode l m) && (buildLMKeycode l m <=? 0x70ff)) = true.
Proof. vm_compute. reflexivity. Qed.

Lemma buildSHT_value_all :
  all1 256 (fun k => buildSHTKeycode k =? 0x5600 + k) = true.
Proof. vm_compute. reflexivity. Qed.

Lemma modTap_value_all :
  all2 32 256 (fun m k =>
    (0x6000 .| (m .<< 8) .| k =? 0x6000 + 256 * m + k)) = true.
Proof. vm_compute. reflexivity. Qed.

Lemma modMask_value_all :
  all2 32 256 (fun m k => ((m .<< 8) .| k =? 256 * m + k)) = true.
Proof. vm_compute. reflexivity. Qed.

Lemma buildLTKeycode_value (layer key : Z) :
  buildLTKeycode layer key = 0x4000 + 256 * (layer .& 0x0f) + (key .& 0xff).
Proof.
  rewrite buildLTKeycode_masked at 1. apply Z.eqb_eq.
  exact (all2_spec 16 256 _ buildLT_value_all _ _
           (band_0x0f_range layer) (band_0xff_range key)).
Qed.

Lemma buildLMKeycode_range (layer mod_ : Z) :
  0x7000 <= buildLMKeycode layer mod_ <= 0x70ff.
Proof.
  rewrite buildLMKeycode_masked.
  pose proof (all2_spec 16 32 _ buildLM_value_all _ _
                (band_0x0f_range layer) (band_0x1f_range mod_)) as H.
  cbv beta in H. apply andb_true_iff in H. destruct H as [H1 H2].
  apply Z.leb_le in H1, H2. split; assumption.
Qed.

Lemma buildSHTKeycode_value (key : Z) :
  buildSHTKeycode key = 0x5600 + (key .& 0xff).
Proof.
  rewrite buildSHTKeycode_masked. apply Z.eqb_eq.
  exact (all1_spec 256 _ buildSHT_value_all _ (band_0xff_range key)).
Qed.

Lemma buildModTapKeycode_value (mask key : Z) :
  mask <> 0 ->
  buildModTapKeycode mask key = 0x6000 + 256 * (mask .& 0x1f) + (key .& 0xff).
Proof.
  intros Hm. unfold buildModTapKeycode.
  apply Z.eqb_neq in Hm. rewrite Hm. apply Z.eqb_eq.
  exact (all2_spec 32 256 _ modTap_value_all _ _
           (band_0x1f_range mask) (band_0xff_range key)).
Qed.

Lemma buildModMaskKeycode_value (mask key : Z) :
  mask <> 0 ->
  buildModMaskKeycode mask key = 256 * (mask .& 0x1f) + (key .& 0xff).
Proof.
  intros Hm. unfold buildModMaskKeycode.
  apply Z.eqb_neq in Hm. rewrite Hm. apply Z.eqb_eq.
  exact (all2_spec 32 256 _ modMask_value_all _ _
           (band_0x1f_range mask) (band_0xff_range key)).
Qed.

Lemma buildLTKeycode_is_lt (layer key : Z) :
  classify (buildLTKeycode layer key) = lt.
Proof.
  apply (classify_interval (buildLTKeycode layer key)).
  rewrite buildLTKeycode_value.
  pose proof (band_0x0f_range layer). pose proof (band_0xff_range key). lia.
Qed.

Lemma buildLMKeycode_is_lm (layer mod_ : Z) :
  classify (buildLMKeycode layer mod_) = lm.
Proof. apply classify_interval, buildLMKeycode_range. Qed.

(** X2. The layer builders never degenerate: for all integer arguments,
    [buildLTKeycode] gives a keycode in 0x4000..0x4FFF that is classified
    LayerTap, and [buildLMKeycode] one in 0x7000..0x70FF that is classified
    LayerMod. *)
Theorem layer_builders_land_in_their_kind (layer v : Z) :
  classify (buildLTKeycode layer v) = lt /\
  0x4000 <= buildLTKeycode layer v <= 0x4fff /\
  classify (buildLMKeycode layer v) = lm /\
  0x7000 <= buildLMKeycode layer v <= 0x70ff.
Proof.
  split; [apply buildLTKeycode_is_lt |].
  split.
  { rewrite buildLTKeycode_value.
    pose proof (band_0x0f_range layer). pose proof (band_0xff_range v). lia. }
  split; [apply buildLMKeycode_is_lm | apply buildLMKeycode_range].
Qed.

(** X3. [buildSHTKeycode] covers 0x5600..0x56FF while [isSHTKeycode] stops
    at 0x56EF: the keycode built on a key whose low byte is at most 0xEF is
    classified SH_T, the one built on a low byte of 0xF0..0xFF is classified
    as no wrapper at all. *)
Theorem buildSHTKeycode_kind (key : Z) :
  buildSHTKeycode key = 0x5600 + (key .& 0xff) /\
  (key .& 0xff <= 0xef -> classify (buildSHTKeycode key) = shT) /\
  (0xf0 <= key .& 0xff -> classify (buildSHTKeycode key) = none).
Proof.
  pose proof (band_0xff_range key) as Hk.
  split; [apply buildSHTKeycode_value |].
  rewrite buildSHTKeycode_value.
  split; intros H; apply classify_interval; lia.
Qed.

Lemma buildSHTKeycode_kind_witness :
  classify (buildSHTKeycode 0x04) = shT /\ classify (buildSHTKeycode 0xf0) = none.
Proof.
  split.
  - apply (proj1 (proj2 (buildSHTKeycode_kind 0x04))). vm_compute. discriminate.
  - apply (proj2 (proj2 (buildSHTKeycode_kind 0xf0))). vm_compute. discriminate.
Defined.

Lemma buildModTapKeycode_is_modTap (mask key : Z) :
  mask <> 0 -> mask .& 0x1f <> 0x10 ->
  classify (buildModTapKeycode mask key) = modTap.
Proof.
  intros Hm H. rewrite (buildModTapKeycode_value mask key Hm).
  pose proof (band_0x1f_range mask). pose proof (band_0xff_range key).
  apply classify_interval. lia.
Qed.

Lemma buildModMaskKeycode_is_modMask (mask key : Z) :
  mask .& 0x1f <> 0 -> classify (buildModMaskKeycode mask key) = modMask.
Proof.
  intros H. assert (Hm : mask <> 0) by (intros ->; apply H; reflexivity).
  rewrite (buildModMaskKeycode_value mask key Hm).
  pose proof (band_0x1f_range mask). pose proof (band_0xff_range key).
  apply classify_interval. lia.
Qed.

(** X4. Where the modifier builders land, for all integer arguments.  With
    a non-zero mask, [buildModTapKeycode] gives a ModTap keycode unless the
    masked modifier is 0x10 (right-hand flag alone), when the keycode is
    classified LayerMod.  [buildModMaskKeycode] gives a ModifierMask keycode
    when the masked modifier is non-zero, and the plain low byte of the key
    otherwise. *)
Theorem modifier_builders_kind (mask key : Z) :
  (mask <> 0 -> mask .& 0x1f <> 0x10 ->
   classify (buildModTapKeycode mask key) = modTap) /\
  (mask .& 0x1f = 0x10 -> classify (buildModTapKeycode mask key) = lm) /\
  (mask .& 0x1f <> 0 -> classify (buildModMaskKeycode mask key) = modMask) /\
  (mask .& 0x1f = 0 -> buildModMaskKeycode mask key = key .& 0xff).
Proof.
  pose proof (band_0x1f_range mask) as Hr.
  pose proof (band_0xff_range key) as Hk.
  split; [apply buildModTapKeycode_is_modTap |].
  split.
  { intros H. assert (Hm : mask <> 0) by (intros ->; discriminate H).
    rewrite (buildModTapKeycode_value mask key Hm).
    apply classify_interval. lia. }
  split; [apply buildModMaskKeycode_is_modMask |].
  intros H. destruct (Z.eq_dec mask 0) as [-> | Hm]; [reflexivity |].
  rewrite (buildModMaskKeycode_value mask key Hm). lia.
Qed.

Lemma modifier_builders_kind_witness :
  classify (buildModTapKeycode 0x02 0x04) = modTap /\
  classify (buildModTapKeycode 0x10 0x04) = lm /\
  buildModMaskKeycode 0x20 0x104 = 0x04.
Proof.
  pose proof (modifier_builders_kind 0x02 0x04) as [H1 _].
  pose proof (modifier_builders_kind 0x10 0x04) as [_ [H2 _]].
  pose proof (modifier_builders_kind 0x20 0x104) as [_ [_ [_ H3]]].
  split; [apply H1; vm_compute; discriminate |].
  split; [apply H2; reflexivity | apply H3; reflexivity].
Defined.

End KindFacts.

(* ------------------------------------------------------------------ *)
(** ** Names: the hex fallback and composite names *)

Module NamesFacts.
Import Codec KeyPopover Resolver Names Range RangeFacts.

Lemma serialize_unnamed_all :
  all2 256 256 (fun hi lo =>
    existsb (Z.eqb (256 * hi + lo)) named_codes
    || (is_hex_literal (serialize (256 * hi + lo))
        && Nat.eqb (String.length (serialize (256 * hi + lo))) 6
        && (HexString.to_Z (serialize (256 * hi + lo)) =? 256 * hi + lo)
        && negb (isMask (serialize (256 * hi + lo))))) = true.
Proof. vm_compute. reflexivity. Qed.

Lemma existsb_eqb_In (v : Z) (l : list Z) :
  existsb (Z.eqb v) l = true -> In v l.
Proof.
  rewrite existsb_exists. intros [x [Hin Heq]].
  apply Z.eqb_eq in Heq. subst. exact Hin.
Qed.

(** X5. A 16-bit code [serialize] has no name for is rendered as "0x" and
    four hexadecimal digits, each one of [0-9a-f], six characters in all;
    read back as a hexadecimal literal it is the code again, and it never
    looks like a masked name. *)
Theorem serialize_unnamed_code_is_hex_literal (code : Z) :
  0 <= code <= 0xFFFF ->
  ~ In code named_codes ->
  is_hex_literal (serialize code) = true /\
  String.length (serialize code) = 6%nat /\
  HexString.to_Z (serialize code) = code /\
  isMask (serialize code) = false.
Proof.
  intros Hrange Hunnamed.
  assert (Hhi : 0 <= code / 256 < Z.of_nat 256).
  { split; [apply Z.div_pos; lia | apply Z.div_lt_upper_bound; lia]. }
  assert (Hlo : 0 <= code mod 256 < Z.of_nat 256) by (apply Z.mod_pos_bound; lia).
  pose proof (all2_spec 256 256 _ serialize_unnamed_all _ _ Hhi Hlo) as H.
  cbv beta in H.
  rewrite <- (Z.div_mod code 256) in H by lia.
  apply orb_true_iff in H. destruct H as [H | H].
  - exfalso. apply Hunnamed, existsb_eqb_In, H.
  - apply andb_true_iff in H. destruct H as [H Hmask].
    apply andb_true_iff in H. destruct H as [H Hhex].
    apply andb_true_iff in H. destruct H as [Hlit Hlen].
    apply Nat.eqb_eq in Hlen. apply Z.eqb_eq in Hhex.
    apply negb_true_iff in Hmask. repeat split; assumption.
Qed.

Lemma serialize_unnamed_code_is_hex_literal_witness :
  serialize 0x00ab = "0x00ab" /\ is_hex_literal (serialize 0x00ab) = true.
Proof.
  split; [reflexivity |].
  apply (serialize_unnamed_code_is_hex_literal 0x00ab); [lia |].
  simpl. intros H. repeat (destruct H as [H | H]; [discriminate H |]). exact H.
Defined.

Lemma inner_group_skips (outer s : string) :
  has_char "(" outer = false -> inner_group (outer ++ s) = inner_group s.
Proof.
  induction outer as [| c outer IH]; intros Hno; [reflexivity |].
  simpl in Hno. apply orb_false_iff in Hno. destruct Hno as [Hc Hno].
  simpl. rewrite Hc. apply IH, Hno.
Qed.

Lemma inner_group_none (s : string) :
  has_char "(" s = false -> inner_group s = None.
Proof.
  induction s as [| c s IH]; intros H; [reflexivity |].
  simpl in H. apply orb_false_iff in H. destruct H as [Hc H].
  simpl. rewrite Hc. apply IH, H.
Qed.

(** X6. A composite name "OUTER(ID)", where OUTER has no parenthesis and ID
    is the id of a catalog entry (basic key or LM modifier), is looked up by
    [findInnerKeycode] as that entry; a name without parenthesis is looked
    up as it stands, among the basic keys only. *)
Theorem findInnerKeycode_reads_inner_name (outer : string) :
  has_char "(" outer = false ->
  (forall kc, In kc Catalog.allMockKeycodes ->
     findInnerKeycode (outer ++ "(" ++ qmkId kc ++ ")") = Some kc) /\
  findInnerKeycode outer = findOuterKeycode outer.
Proof.
  intros Hno. split.
  - intros kc Hin. unfold findInnerKeycode.
    rewrite (inner_group_skips outer _ Hno).
    simpl in Hin.
    repeat (destruct Hin as [<- | Hin]; [reflexivity |]).
    contradiction.
  - unfold findInnerKeycode. rewrite (inner_group_none outer Hno). reflexivity.
Qed.

Lemma findInnerKeycode_reads_inner_name_witness :
  option_map qmkId (findInnerKeycode "LM0(MOD_LSFT)") = Some "MOD_LSFT" /\
  findInnerKeycode "MOD_LSFT" = None.
Proof.
  pose proof (findInnerKeycode_reads_inner_name "LM0" eq_refl) as [H _].
  pose proof (findInnerKeycode_reads_inner_name "MOD_LSFT" eq_refl) as [_ H'].
  split.
  - specialize (H (mkKeycode "MOD_LSFT" "LSft" (Some "Left Shift") false
                             ["MOD_LSFT"] false)).
    simpl in H. rewrite H; [reflexivity | tauto].
  - rewrite H'. reflexivity.
Defined.

End NamesFacts.

(* ------------------------------------------------------------------ *)
(** ** The popover's handlers, composed with the codec and its widgets *)

Module HandlerFacts.
Import Codec KeyPopover ModifierCheckboxStrip LayerSelector.
Import Range RangeFacts JSFacts ClassifierFacts FieldCodecFacts.
Import ModifierCheckboxStripFacts KindFacts.

Lemma extractBasicKey_mod (code : Z) : extractBasicKey code = code mod 256.
Proof. unfold extractBasicKey. apply band_0xff. Qed.

Lemma extractBasicKey_range (code : Z) : 0 <= extractBasicKey code <= 0xff.
Proof.
  rewrite extractBasicKey_mod.
  pose proof (Z.mod_pos_bound code 256 ltac:(lia)). lia.
Qed.

Lemma sar_8 (code : Z) : 0 <= code < 2 ^ 31 -> code .>> 8 = code / 256.
Proof.
  intros H. unfold JS.sar. rewrite to_int32_small by lia.
  change (Z.land 8 31) with 8. rewrite Z.shiftr_div_pow2 by lia. reflexivity.
Qed.

Lemma extractModMask_div (code : Z) :
  0 <= code < 2 ^ 31 -> extractModMask code = (code / 256) mod 32.
Proof. intros H. unfold extractModMask. rewrite sar_8, band_0x1f by exact H. reflexivity. Qed.

Lemma toggle_masked (modMask bit : Z) (right : bool) :
  toggle modMask bit right .& 0x1f = toggle modMask bit right.
Proof.
  apply band_0x1f_id. pose proof (toggle_range modMask bit right). lia.
Qed.

(** X7. Clicking the button of the mode the popover is in turns the mode
    off.  Outside LM mode this reports the low byte of the current keycode,
    and reports nothing when the keycode already is a plain key 0..255; the
    selected layer is kept. *)
Theorem toggling_mode_off_reverts_to_basic_key (p : Props) (s : State) :
  wrapperMode s <> lm ->
  wrapperMode (snd (handleModeSwitch p s (wrapperMode s))) = none /\
  selectedLayer (snd (handleModeSwitch p s (wrapperMode s))) = selectedLayer s /\
  (0 <= currentKeycode p <= 0xff ->
   fst (handleModeSwitch p s (wrapperMode s)) = []) /\
  (~ 0 <= currentKeycode p <= 0xff ->
   fst (handleModeSwitch p s (wrapperMode s))
   = [onRawKeycodeSelect (extractBasicKey (currentKeycode p))]).
Proof.
  intros Hmode. unfold handleModeSwitch.
  assert (Hsame : WrapperMode_eqb (wrapperMode s) (wrapperMode s) = true)
    by (apply WrapperMode_eqb_eq; reflexivity).
  rewrite Hsame. cbn [fst snd wrapperMode selectedLayer].
  split; [reflexivity | split; [reflexivity |]].
  assert (Hbk : match wrapperMode s with
                | lm => 0
                | _ => extractBasicKey (currentKeycode p)
                end = extractBasicKey (currentKeycode p))
    by (destruct (wrapperMode s); try reflexivity; contradiction).
  rewrite Hbk, extractBasicKey_mod.
  pose proof (Z.mod_pos_bound (currentKeycode p) 256 ltac:(lia)) as Hr.
  split; intros Hcode.
  - rewrite Z.mod_small by lia. rewrite Z.eqb_refl. reflexivity.
  - assert (Hne : (currentKeycode p mod 256 =? currentKeycode p) = false)
      by (apply Z.eqb_neq; lia).
    rewrite Hne. reflexivity.
Qed.

Lemma toggling_mode_off_reverts_to_basic_key_witness :
  fst (handleModeSwitch (mkProps 0x4104 false false)
                        (initState (mkProps 0x4104 false false)) lt)
  = [onRawKeycodeSelect 0x04].
Proof.
  apply (proj2 (proj2 (proj2
           (toggling_mode_off_reverts_to_basic_key
              (mkProps 0x4104 false false)
              (initState (mkProps 0x4104 false false))
              ltac:(discriminate))))).
  cbn [currentKeycode]. lia.
Defined.

(** X8. Wrapping a plain key and unwrapping it again gives the key back:
    from mode [none] on a key 0..255, the LT (or SH_T) button reports the
    wrapped keycode; once that keycode is the current one, the same button
    reports the original key and the mode is [none] again. *)
Theorem wrap_then_unwrap_restores_key (k sel n : Z) (cb : bool) :
  0 <= k <= 0xff ->
  handleModeSwitch (mkProps k false cb) (mkState none sel n) lt
  = ([onRawKeycodeSelect (buildLTKeycode sel k)], mkState lt sel n) /\
  handleModeSwitch (mkProps (buildLTKeycode sel k) false cb) (mkState lt sel n) lt
  = ([onRawKeycodeSelect k], mkState none sel n) /\
  handleModeSwitch (mkProps k false cb) (mkState none sel n) shT
  = ([onRawKeycodeSelect (buildSHTKeycode k)], mkState shT sel n) /\
  handleModeSwitch (mkProps (buildSHTKeycode k) false cb) (mkState shT sel n) shT
  = ([onRawKeycodeSelect k], mkState none sel n).
Proof.
  intros Hk.
  assert (Hbk : extractBasicKey k = k)
    by (rewrite extractBasicKey_mod; apply Z.mod_small; lia).
  assert (Hmask : k .& 0xff = k) by (apply band_0xff_id; lia).
  assert (Hlt : extractBasicKey (buildLTKeycode sel k) = k)
    by (rewrite (proj2 (lt_fields sel k)); exact Hmask).
  assert (Hsht : extractBasicKey (buildSHTKeycode k) = k)
    by (rewrite shT_fields; exact Hmask).
  assert (Hlt' : (k =? buildLTKeycode sel k) = false).
  { apply Z.eqb_neq. rewrite buildLTKeycode_value.
    pose proof (band_0x0f_range sel). lia. }
  assert (Hsht' : (k =? buildSHTKeycode k) = false).
  { apply Z.eqb_neq. rewrite buildSHTKeycode_value. lia. }
  unfold handleModeSwitch.
  cbn [wrapperMode selectedLayer searchResetKey currentKeycode WrapperMode_eqb
       andb negb].
  rewrite Hbk, Hlt, Hsht, Hlt', Hsht'. repeat split.
Qed.

Lemma wrap_then_unwrap_restores_key_witness :
  handleModeSwitch (mkProps 0x4004 false false) (mkState lt 0 0) lt
  = ([onRawKeycodeSelect 0x04], mkState none 0 0).
Proof.
  exact (proj1 (proj2 (wrap_then_unwrap_restores_key 0x04 0 0 false
                         ltac:(lia)))).
Defined.

Lemma strip_modTap_fields (m bk : Z) :
  0 <= m <= 0x1f -> m <> 0x10 -> m <> 0 -> 0 <= bk <= 0xff ->
  classify (buildModTapKeycode m bk) = modTap /\
  extractModMask (buildModTapKeycode m bk) = m /\
  extractBasicKey (buildModTapKeycode m bk) = bk.
Proof.
  intros Hm H16 H0 Hbk.
  assert (Hmm : m .& 0x1f = m) by (apply band_0x1f_id; lia).
  assert (Hkk : bk .& 0xff = bk) by (apply band_0xff_id; lia).
  assert (Hc : classify (buildModTapKeycode m bk) = modTap)
    by (apply buildModTapKeycode_is_modTap; [exact H0 | rewrite Hmm; exact H16]).
  destruct (modTap_fields m bk Hc) as [H1 H2].
  rewrite Hmm in H1. rewrite Hkk in H2. repeat split; assumption.
Qed.

Lemma strip_modMask_fields (m bk : Z) :
  0 <= m <= 0x1f -> m <> 0 -> 0 <= bk <= 0xff ->
  classify (buildModMaskKeycode m bk) = modMask /\
  extractModMask (buildModMaskKeycode m bk) = m /\
  extractBasicKey (buildModMaskKeycode m bk) = bk.
Proof.
  intros Hm H0 Hbk.
  assert (Hmm : m .& 0x1f = m) by (apply band_0x1f_id; lia).
  assert (Hkk : bk .& 0xff = bk) by (apply band_0xff_id; lia).
  assert (Hc : classify (buildModMaskKeycode m bk) = modMask)
    by (apply buildModMaskKeycode_is_modMask; rewrite Hmm; exact H0).
  destruct (modMask_fields m bk Hc) as [H1 H2].
  rewrite Hmm in H1. rewrite Hkk in H2. repeat split; assumption.
Qed.

Lemma zero_mask_build (bk : Z) :
  0 <= bk <= 0xff ->
  buildModTapKeycode 0 bk = bk /\ buildModMaskKeycode 0 bk = bk.
Proof.
  intros Hbk. unfold buildModTapKeycode, buildModMaskKeycode.
  change (0 =? 0) with true. cbv iota.
  rewrite band_0xff_id by lia. split; reflexivity.
Qed.

(** X9. What a click on the modifier strip does to the keycode.  In ModTap
    mode the mask the strip hands out, whatever mask it was shown and
    whichever button was clicked, is packed with the current basic key: the
    result is that basic key when the mask is 0, and otherwise a keycode
    classified ModTap that carries exactly this mask and this key; it never
    falls into the LayerMod range.  The same holds in ModifierMask mode when
    the popover builds the keycode itself. *)
Theorem strip_click_keeps_the_kind (p : Props) (s : State)
        (shown bit : Z) (right : bool) :
  (wrapperMode s = modTap ->
   fst (handleModStripChange p s (toggle shown bit right))
   = [onRawKeycodeSelect
        (buildModTapKeycode (toggle shown bit right)
                            (extractBasicKey (currentKeycode p)))] /\
   (toggle shown bit right = 0 ->
    buildModTapKeycode (toggle shown bit right)
                       (extractBasicKey (currentKeycode p))
    = extractBasicKey (currentKeycode p)) /\
   (toggle shown bit right <> 0 ->
    classify (buildModTapKeycode (toggle shown bit right)
                                 (extractBasicKey (currentKeycode p))) = modTap /\
    extractModMask (buildModTapKeycode (toggle shown bit right)
                                       (extractBasicKey (currentKeycode p)))
    = toggle shown bit right /\
    extractBasicKey (buildModTapKeycode (toggle shown bit right)
                                        (extractBasicKey (currentKeycode p)))
    = extractBasicKey (currentKeycode p)))
  /\
  (wrapperMode s = modMask ->
   hasOnModMaskChange p = false ->
   fst (handleModStripChange p s (toggle shown bit right))
   = [onRawKeycodeSelect
        (buildModMaskKeycode (toggle shown bit right)
                             (extractBasicKey (currentKeycode p)))] /\
   (toggle shown bit right = 0 ->
    buildModMaskKeycode (toggle shown bit right)
                        (extractBasicKey (currentKeycode p))
    = extractBasicKey (currentKeycode p)) /\
   (toggle shown bit right <> 0 ->
    classify (buildModMaskKeycode (toggle shown bit right)
                                  (extractBasicKey (currentKeycode p))) = modMask /\
    extractModMask (buildModMaskKeycode (toggle shown bit right)
                                        (extractBasicKey (currentKeycode p)))
    = toggle shown bit right /\
    extractBasicKey (buildModMaskKeycode (toggle shown bit right)
                                         (extractBasicKey (currentKeycode p)))
    = extractBasicKey (currentKeycode p))).
Proof.
  pose proof (toggle_range shown bit right) as Hr.
  pose proof (toggle_not_right_flag_alone shown bit right) as H16.
  pose proof (extractBasicKey_range (currentKeycode p)) as Hbk.
  split.
  - intros Hmode. split.
    { unfold handleModStripChange. rewrite Hmode. reflexivity. }
    split.
    + intros ->. apply zero_mask_build, Hbk.
    + intros H0. apply strip_modTap_fields; assumption.
  - intros Hmode Hcb. split.
    { unfold handleModStripChange. rewrite Hmode, Hcb. reflexivity. }
    split.
    + intros ->. apply zero_mask_build, Hbk.
    + intros H0. apply strip_modMask_fields; assumption.
Qed.

Lemma strip_click_keeps_the_kind_witness :
  fst (handleModStripChange (mkProps 0x6204 false false)
                            (initState (mkProps 0x6204 false false))
                            (toggle 0x02 0 false))
  = [onRawKeycodeSelect 0x6304].
Proof.
  exact (proj1 (proj1 (strip_click_keeps_the_kind
                         (mkProps 0x6204 false false)
                         (initState (mkProps 0x6204 false false))
                         0x02 0 false) eq_refl)).
Defined.

Lemma buttons_range (layers i : Z) :
  In i (buttons layers) -> 0 <= i < layers.
Proof.
  unfold buttons. rewrite in_map_iff. intros [n [<- Hn]].
  apply in_seq in Hn. lia.
Qed.

(** X10. A click on a layer button in LT mode.  The selector offers the
    layers 0..layers-1; clicking layer [i] makes it the selected layer and
    reports a keycode classified LayerTap that keeps the current basic key
    and carries the low four bits of [i], which is [i] itself as long as
    the selector has at most 16 layers. *)
Theorem layer_button_in_lt_mode (p : Props) (s : State) (layers i : Z) :
  wrapperMode s = lt ->
  In i (buttons layers) ->
  fst (handleLayerChange p s i)
  = [onRawKeycodeSelect (buildLTKeycode i (extractBasicKey (currentKeycode p)))] /\
  selectedLayer (snd (handleLayerChange p s i)) = i /\
  wrapperMode (snd (handleLayerChange p s i)) = lt /\
  classify (buildLTKeycode i (extractBasicKey (currentKeycode p))) = lt /\
  extractBasicKey (buildLTKeycode i (extractBasicKey (currentKeycode p)))
  = extractBasicKey (currentKeycode p) /\
  extractLTLayer (buildLTKeycode i (extractBasicKey (currentKeycode p)))
  = i mod 16 /\
  (layers <= 16 ->
   extractLTLayer (buildLTKeycode i (extractBasicKey (currentKeycode p))) = i).
Proof.
  intros Hmode Hin.
  pose proof (buttons_range layers i Hin) as Hi.
  pose proof (extractBasicKey_range (currentKeycode p)) as Hbk.
  destruct (lt_fields i (extractBasicKey (currentKeycode p))) as [Hl Hk].
  rewrite band_0x0f in Hl.
  rewrite (band_0xff_id (extractBasicKey (currentKeycode p))) in Hk by lia.
  unfold handleLayerChange. rewrite Hmode. cbn [fst snd selectedLayer wrapperMode].
  repeat split; try assumption.
  - apply buildLTKeycode_is_lt.
  - intros Hle. rewrite Hl. apply Z.mod_small. lia.
Qed.

Lemma layer_button_in_lt_mode_witness :
  fst (handleLayerChange (mkProps 0x4004 false false)
                         (initState (mkProps 0x4004 false false)) 2)
  = [onRawKeycodeSelect 0x4204].
Proof.
  refine (proj1 (layer_button_in_lt_mode (mkProps 0x4004 false false)
                   (initState (mkProps 0x4004 false false)) 4 2 eq_refl _)).
  vm_compute. tauto.
Defined.

Lemma fields_of_modMask_code (cur : Z) :
  classify cur = modMask ->
  1 <= extractModMask cur <= 0x1f.
Proof.
  intros Hc. pose proof (classify_sound cur) as Hs. rewrite Hc in Hs.
  apply isModMaskKeycode_iff in Hs.
  rewrite extractModMask_div by lia.
  assert (1 <= cur / 256 <= 31) by (Z.div_mod_to_equations; lia).
  rewrite Z.mod_small by lia. lia.
Qed.

Lemma fields_of_modTap_code (cur : Z) :
  classify cur = modTap ->
  0 <= extractModMask cur <= 0x1f /\ extractModMask cur <> 0x10.
Proof.
  intros Hc. pose proof (classify_sound cur) as Hmt. rewrite Hc in Hmt.
  apply isModTapKeycode_iff in Hmt.
  assert (Hlm : ~ 0x7000 <= cur <= 0x70ff).
  { intros Hin. apply classify_interval in Hin. congruence. }
  rewrite extractModMask_div by lia.
  assert (0x60 <= cur / 256 <= 0x7f) by (Z.div_mod_to_equations; lia).
  assert (cur / 256 <> 0x70).
  { intros Heq. pose proof (Z.div_mod cur 256 ltac:(lia)) as Hdm.
    pose proof (Z.mod_pos_bound cur 256 ltac:(lia)). lia. }
  pose proof (Z.mod_pos_bound (cur / 256) 32 ltac:(lia)).
  split; [lia |]. Z.div_mod_to_equations. lia.
Qed.

(** X11. Switching between the two modifier modes keeps the modifier mask
    and the basic key.  From a ModifierMask keycode the ModTap button
    reports a ModTap keycode with the same mask and key, unless the mask is
    0x10 (right-hand flag alone, which has no ModTap keycode); from a ModTap
    keycode with a non-zero mask the ModMask button reports a ModifierMask
    keycode with the same mask and key. *)
Theorem switching_modifier_modes_keeps_fields (p : Props) (s : State) :
  (wrapperMode s = modMask ->
   classify (currentKeycode p) = modMask ->
   extractModMask (currentKeycode p) <> 0x10 ->
   exists code,
     fst (handleModeSwitch p s modTap) = [onRawKeycodeSelect code] /\
     classify code = modTap /\
     extractModMask code = extractModMask (currentKeycode p) /\
     extractBasicKey code = extractBasicKey (currentKeycode p)) /\
  (wrapperMode s = modTap ->
   classify (currentKeycode p) = modTap ->
   extractModMask (currentKeycode p) <> 0 ->
   exists code,
     fst (handleModeSwitch p s modMask) = [onRawKeycodeSelect code] /\
     classify code = modMask /\
     extractModMask code = extractModMask (currentKeycode p) /\
     extractBasicKey code = extractBasicKey (currentKeycode p)).
Proof.
  pose proof (extractBasicKey_range (currentKeycode p)) as Hbk.
  split; intros Hmode Hkind Hmask.
  - pose proof (fields_of_modMask_code _ Hkind) as Hm.
    exists (buildModTapKeycode (extractModMask (currentKeycode p))
                               (extractBasicKey (currentKeycode p))).
    split.
    { unfold handleModeSwitch, preservedMask. rewrite Hmode. reflexivity. }
    apply strip_modTap_fields; lia.
  - pose proof (fields_of_modTap_code _ Hkind) as [Hm _].
    exists (buildModMaskKeycode (extractModMask (currentKeycode p))
                                (extractBasicKey (currentKeycode p))).
    split.
    { unfold handleModeSwitch, preservedMask. rewrite Hmode. reflexivity. }
    apply strip_modMask_fields; lia.
Qed.

Lemma switching_modifier_modes_keeps_fields_witness :
  exists code,
    fst (handleModeSwitch (mkProps 0x0204 false false)
                          (initState (mkProps 0x0204 false false)) modTap)
    = [onRawKeycodeSelect code] /\
    classify code = modTap /\
    extractModMask code = 2 /\
    extractBasicKey code = 4.
Proof.
  apply (proj1 (switching_modifier_modes_keeps_fields
                  (mkProps 0x0204 false false)
                  (initState (mkProps 0x0204 false false))));
    [reflexivity | reflexivity | vm_compute; discriminate].
Defined.

End HandlerFacts.

(* ------------------------------------------------------------------ *)
(** ** The modifier strip: what a click changes *)

Module StripFacts.
Import ModifierCheckboxStrip ModifierButtons.
Import Range RangeFacts JSFacts ModifierCheckboxStripFacts.

Lemma land_lxor_distr (a b c : Z) :
  Z.land (Z.lxor a b) c = Z.lxor (Z.land a c) (Z.land b c).
Proof.
  apply Z.bits_inj'. intros n Hn.
  rewrite Z.land_spec, !Z.lxor_spec, !Z.land_spec.
  destruct (Z.testbit a n), (Z.testbit b n), (Z.testbit c n); reflexivity.
Qed.

(** [toggle] on the bits of the toggled mask [t]. *)
Lemma toggle_bits_of (modMask bit : Z) (right : bool) :
  toggle modMask bit right =
  Z.land (if right && negb (Z.land (JS.to_int32 (modMask .^ (1 .<< bit))) 15 =? 0)
          then Z.lor (JS.to_int32 (modMask .^ (1 .<< bit))) 16
          else Z.land (JS.to_int32 (modMask .^ (1 .<< bit))) (-17)) 31.
Proof.
  unfold toggle. cbv zeta.
  set (toggled := modMask .^ (1 .<< bit)).
  change RIGHT_BIT with 16. change MOD_BITS_MASK with 15. change FULL_MASK with 31.
  change (JS.bnot 16) with (-17).
  unfold JS.band at 1.
  change (JS.to_int32 31) with (Z.ones 5).
  rewrite land_to_int32_ones by lia.
  unfold JS.band, JS.bor.
  change (JS.to_int32 15) with 15. change (JS.to_int32 16) with 16.
  change (JS.to_int32 (-17)) with (-17).
  reflexivity.
Qed.

Lemma toggle_low_bits (modMask bit : Z) (right : bool) :
  Z.land (toggle modMask bit right) 15
  = Z.land (JS.to_int32 (modMask .^ (1 .<< bit))) 15.
Proof.
  rewrite toggle_bits_of.
  set (t := JS.to_int32 (modMask .^ (1 .<< bit))).
  rewrite <- Z.land_assoc. change (Z.land 31 15) with 15.
  destruct (right && negb (Z.land t 15 =? 0)).
  - rewrite Z.land_lor_distr_l. change (Z.land 16 15) with 0.
    apply Z.lor_0_r.
  - rewrite <- Z.land_assoc. reflexivity.
Qed.

Lemma mods_bits (bit : Z) :
  In bit (map snd MODS) -> bit = 0 \/ bit = 1 \/ bit = 2 \/ bit = 3.
Proof. simpl. intuition. Qed.

(** X12. A click flips exactly the modifier bit of the clicked button: among
    the four modifier bits of the mask handed to [onChange], the clicked one
    is inverted and the other three are as they were, for every mask. *)
Theorem toggle_flips_the_clicked_bit (modMask bit : Z) (right : bool) :
  In bit (map snd MODS) ->
  toggle modMask bit right .& MOD_BITS_MASK
  = (modMask .& MOD_BITS_MASK) .^ (1 .<< bit).
Proof.
  intros Hbit.
  pose proof (toggle_range modMask bit right) as Hr.
  change MOD_BITS_MASK with 15.
  rewrite band_small by lia. rewrite toggle_low_bits.
  change 15 with (Z.ones 4) at 1. rewrite land_to_int32_ones by lia.
  change (Z.ones 4) with 15.
  unfold JS.bxor at 1. rewrite land_lxor_distr.
  assert (Hlow : 0 <= modMask .& 15 < 16) by apply band_0x0f_range.
  unfold JS.bxor. rewrite (to_int32_small (modMask .& 15)) by lia.
  unfold JS.band. change (JS.to_int32 15) with 15.
  f_equal.
  apply mods_bits in Hbit.
  destruct Hbit as [-> | [-> | [-> | ->]]]; reflexivity.
Qed.

Lemma toggle_flips_the_clicked_bit_witness :
  toggle 0x13 1 true .& MOD_BITS_MASK = 0x01.
Proof.
  rewrite (toggle_flips_the_clicked_bit 0x13 1 true); [reflexivity |].
  simpl. tauto.
Defined.

(** X13. After a click, the modifiers that are set all belong to the row of
    the clicked button: whenever the mask handed to [onChange] has a modifier
    bit, its right-hand flag says the row that was clicked. *)
Theorem toggle_sets_the_side_of_the_row (modMask bit : Z) (right : bool) :
  hasAnyMod (toggle modMask bit right) = true ->
  isRight (toggle modMask bit right) = right.
Proof.
  pose proof (toggle_range modMask bit right) as Hr.
  unfold hasAnyMod, isRight.
  change RIGHT_BIT with 16. change MOD_BITS_MASK with 15.
  rewrite !band_small by lia.
  rewrite toggle_low_bits. rewrite toggle_bits_of.
  set (t := JS.to_int32 (modMask .^ (1 .<< bit))).
  rewrite <- (Z.land_assoc _ 31 16). change (Z.land 31 16) with 16.
  intros Hmods.
  destruct right; cbn [andb].
  - rewrite Hmods.
    rewrite Z.land_lor_distr_l. change (Z.land 16 16) with 16.
    assert (Hnz : Z.lor (Z.land t 16) 16 <> 0).
    { intros H0. apply Z.lor_eq_0_iff in H0. destruct H0 as [_ H0].
      discriminate H0. }
    apply Z.eqb_neq in Hnz. rewrite Hnz. reflexivity.
  - rewrite <- Z.land_assoc. change (Z.land (-17) 16) with 0.
    rewrite Z.land_0_r. reflexivity.
Qed.

Lemma toggle_sets_the_side_of_the_row_witness :
  isRight (toggle 0x00 2 true) = true.
Proof. apply (toggle_sets_the_side_of_the_row 0x00 2 true). reflexivity. Defined.

Lemma click_twice_all :
  all2 32 4 (fun m b =>
    forallb (fun r =>
      negb (well_formed m)
      || match click m b r with
         | None => true
         | Some m' =>
             match click m' b r with
             | Some m'' => m'' =? m
             | None => false
             end
         end) [true; false]) = true.
Proof. vm_compute. reflexivity. Qed.

Lemma pressed_flips_all :
  all2 32 4 (fun m b =>
    forallb (fun r =>
      disabled m r
      || Bool.eqb (active (toggle m b r) b r) (negb (active m b r)))
      [true; false]) = true.
Proof. vm_compute. reflexivity. Qed.

Lemma well_formed_range (m : Z) : well_formed m = true -> 0 <= m < Z.of_nat 32.
Proof.
  unfold well_formed. intros H.
  apply andb_true_iff in H. destruct H as [H _].
  apply andb_true_iff in H. destruct H as [H1 H2].
  apply Z.leb_le in H1, H2. lia.
Qed.

Lemma mods_bits_range (bit : Z) :
  In bit (map snd MODS) -> 0 <= bit < Z.of_nat 4.
Proof. intros H. apply mods_bits in H. lia. Qed.

Lemma both_rows (P : bool -> bool) (r : bool) :
  forallb P [true; false] = true -> P r = true.
Proof.
  intros H. rewrite forallb_forall in H. apply H.
  destruct r; simpl; tauto.
Qed.

(** X14. On a mask as the strip hands them out (five bits, right-hand flag
    only next to a modifier), clicking the same enabled button twice gives
    the mask back. *)
Theorem clicking_twice_restores_the_mask (modMask bit : Z) (right : bool)
        (after : Z) :
  well_formed modMask = true ->
  In bit (map snd MODS) ->
  click modMask bit right = Some after ->
  click after bit right = Some modMask.
Proof.
  intros Hwf Hbit Hclick.
  pose proof (all2_spec 32 4 _ click_twice_all modMask bit
                (well_formed_range _ Hwf) (mods_bits_range _ Hbit)) as H.
  cbv beta in H. apply (both_rows _ right) in H.
  apply orb_true_iff in H. destruct H as [H | H].
  - rewrite Hwf in H. discriminate H.
  - rewrite Hclick in H.
    destruct (click after bit right) as [back |]; [| discriminate H].
    apply Z.eqb_eq in H. subst. reflexivity.
Qed.

Lemma clicking_twice_restores_the_mask_witness :
  click 0x13 0 true = Some 0x12 /\ click 0x12 0 true = Some 0x13.
Proof.
  split; [reflexivity |].
  apply (clicking_twice_restores_the_mask 0x13 0 true 0x12);
    [reflexivity | simpl; tauto | reflexivity].
Defined.

(** X15. For a five-bit mask, a click on an enabled button inverts whether
    that button shows as pressed: a pressed button is released, a released
    one is pressed. *)
Theorem enabled_click_flips_pressed (modMask bit : Z) (right : bool) :
  0 <= modMask <= 0x1f ->
  In bit (map snd MODS) ->
  disabled modMask right = false ->
  active (toggle modMask bit right) bit right = negb (active modMask bit right).
Proof.
  intros Hm Hbit Hen.
  pose proof (all2_spec 32 4 _ pressed_flips_all modMask bit
                ltac:(lia) (mods_bits_range _ Hbit)) as H.
  cbv beta in H. apply (both_rows _ right) in H.
  apply orb_true_iff in H. destruct H as [H | H].
  - rewrite Hen in H. discriminate H.
  - apply Bool.eqb_prop in H. exact H.
Qed.

Lemma enabled_click_flips_pressed_witness :
  active 0x02 1 false = true /\ active (toggle 0x02 1 false) 1 false = false.
Proof.
  split; [reflexivity |].
  rewrite (enabled_click_flips_pressed 0x02 1 false);
    [reflexivity | lia | simpl; tauto | reflexivity].
Defined.

End StripFacts.

(* ------------------------------------------------------------------ *)
(** ** The decompression guard *)

Module LzmaFacts.
Import Lzma.
Local Open Scope list_scope.

Lemma hasXzMagic_prefix (buf : list Z) :
  hasXzMagic buf = true -> exists rest, buf = XZ_MAGIC ++ rest.
Proof.
  intros H.
  destruct buf as [| b0 [| b1 [| b2 [| b3 [| b4 [| b5 rest]]]]]];
    try discriminate H.
  exists rest. unfold hasXzMagic in H.
  cbn [List.length Nat.ltb Nat.leb XZ_MAGIC seq forallb nth] in H.
  repeat (apply andb_true_iff in H; destruct H as [? H]).
  repeat match goal with
         | Hb : (_ =? _) = true |- _ => apply Z.eqb_eq in Hb
         end.
  subst. reflexivity.
Qed.

(** X16. [hasXzMagic] holds exactly for the buffers that begin with the six
    magic bytes; in particular no buffer shorter than six bytes has it. *)
Theorem hasXzMagic_iff_prefix (buf : list Z) :
  hasXzMagic buf = true <-> exists rest, buf = XZ_MAGIC ++ rest.
Proof.
  split.
  - apply hasXzMagic_prefix.
  - intros [rest ->]. reflexivity.
Qed.

Lemma route_cons (v : Z) (d : list Z) :
  route (Some (v :: d)) =
  if Z.of_nat (List.length (v :: d)) >? MAX_COMPRESSED_SIZE then Rejected
  else if hasXzMagic (Buffer_from (v :: d)) then ToXz (Buffer_from (v :: d))
       else ToLzma (v :: d).
Proof. reflexivity. Qed.

(** X17. Where the IPC handler sends its argument.  Nothing that is absent,
    empty or longer than 1 MiB reaches a decompressor; an accepted input goes
    to [xz] exactly when the low bytes of its first six numbers are the XZ
    magic, and to the LZMA library otherwise, unchanged. *)
Theorem route_guards_the_decompressors (data : option (list Z)) :
  (route data = Rejected <->
   match data with
   | None => True
   | Some d => d = [] \/ MAX_COMPRESSED_SIZE < Z.of_nat (List.length d)
   end) /\
  (forall buf, route data = ToXz buf ->
     exists d rest,
       data = Some d /\ buf = Buffer_from d /\
       0 < Z.of_nat (List.length d) <= MAX_COMPRESSED_SIZE /\
       Buffer_from d = XZ_MAGIC ++ rest) /\
  (forall d', route data = ToLzma d' ->
     data = Some d' /\
     0 < Z.of_nat (List.length d') <= MAX_COMPRESSED_SIZE /\
     hasXzMagic (Buffer_from d') = false).
Proof.
  destruct data as [[| v d0] |].
  3: { split; [split; [tauto | reflexivity] |].
       split; intros ? H; discriminate H. }
  1: { split; [split; [intros _; left; reflexivity | reflexivity] |].
       split; intros ? H; discriminate H. }
  rewrite route_cons.
  assert (Hlen : 0 < Z.of_nat (List.length (v :: d0)))
    by (cbn [List.length]; lia).
  assert (Hne : v :: d0 <> []) by discriminate.
  generalize dependent (v :: d0). intros d Hlen Hne.
  destruct (Z.gtb_spec (Z.of_nat (List.length d)) MAX_COMPRESSED_SIZE)
    as [Hbig | Hok].
  { split; [split; [| reflexivity] |].
    - intros _. right. exact Hbig.
    - split; intros ? H; discriminate H. }
  destruct (hasXzMagic (Buffer_from d)) eqn:Hmagic.
  - split; [split; [intros H; discriminate H |] |].
    + intros [H | H]; [contradiction | lia].
    + split; [| intros ? H; discriminate H].
      intros buf H. injection H as <-.
      apply hasXzMagic_prefix in Hmagic. destruct Hmagic as [rest Hrest].
      exists d, rest. repeat split; auto.
  - split; [split; [intros H; discriminate H |] |].
    + intros [H | H]; [contradiction | lia].
    + split; [intros ? H; discriminate H |].
      intros d' H. injection H as <-. repeat split; auto.
Qed.

Section XzFacts.

Variable decode : list Z -> option string.

Local Notation "'run'" := (xz_run decode).
Local Notation "'step'" := (xz_step decode).

Lemma run_snoc (events : list XzEvent) (e : XzEvent) :
  run (events ++ [e]) = step (run events) e.
Proof. unfold xz_run. rewrite fold_left_app. reflexivity. Qed.

Lemma settle_settled (v : option string) (s : XzState) :
  settled s = true -> settle v s = s.
Proof. unfold settle. intros ->. reflexivity. Qed.

Lemma step_settled (s : XzState) (e : XzEvent) :
  settled s = true ->
  settled (step s e) = true /\ resolved (step s e) = resolved s.
Proof.
  intros Hs. destruct e as [| chunk | code |]; unfold xz_step.
  - rewrite settle_settled by exact Hs. split; [exact Hs | reflexivity].
  - cbv zeta.
    destruct (totalSize s + Z.of_nat (List.length chunk) >? MAX_DECOMPRESSED_SIZE).
    + rewrite settle_settled by exact Hs. split; [exact Hs | reflexivity].
    + split; [exact Hs | reflexivity].
  - destruct (totalSize s >? MAX_DECOMPRESSED_SIZE);
      [| destruct code as [[| c | c] |]];
      rewrite settle_settled by exact Hs; split; (exact Hs || reflexivity).
  - rewrite settle_settled by exact Hs. split; [exact Hs | reflexivity].
Qed.

(** Until the promise is settled, all that has happened is data within the
    limit. *)
Lemma unsettled_run (events : list XzEvent) :
  settled (run events) = false ->
  exists cs,
    events = map Data cs /\
    chunks (run events) = cs /\
    totalSize (run events) = Z.of_nat (List.length (List.concat cs)) /\
    totalSize (run events) <= MAX_DECOMPRESSED_SIZE /\
    resolved (run events) = None.
Proof.
  induction events as [| e events IH] using rev_ind.
  - intros _. exists []. repeat split. unfold MAX_DECOMPRESSED_SIZE. simpl. lia.
  - rewrite run_snoc. intros Hs.
    destruct (settled (run events)) eqn:Hprev.
    { destruct (step_settled (run events) e Hprev) as [Hs' _]. congruence. }
    destruct (IH eq_refl) as [cs [Hev [Hcs [Htot [Hle Hres]]]]].
    destruct e as [| chunk | code |]; unfold xz_step in *.
    + unfold settle, kill in Hs. cbn [settled] in Hs. rewrite Hprev in Hs.
      discriminate Hs.
    + cbv zeta in *.
      destruct (Z.gtb_spec (totalSize (run events) + Z.of_nat (List.length chunk))
                           MAX_DECOMPRESSED_SIZE) as [Hbig | Hok].
      * unfold settle, kill in Hs. cbn [settled] in Hs. rewrite Hprev in Hs.
        discriminate Hs.
      * exists (cs ++ [chunk]). cbn [chunks totalSize resolved].
        rewrite Hcs, Hres, Htot, concat_app, length_app.
        cbn [List.concat]. rewrite app_nil_r.
        repeat split; try lia.
        rewrite map_app, <- Hev. reflexivity.
    + destruct (totalSize (run events) >? MAX_DECOMPRESSED_SIZE);
        [| destruct code as [[| c | c] |]];
        unfold settle in Hs; rewrite Hprev in Hs; discriminate Hs.
    + unfold settle in Hs. rewrite Hprev in Hs. discriminate Hs.
Qed.

Lemma settle_fresh (v : option string) (s : XzState) :
  settled s = false -> resolved (settle v s) = Some v.
Proof. unfold settle. intros ->. reflexivity. Qed.

(** X18. Bomb protection of [decompressXz].  Whatever the child process and
    the timer do, and in whatever order, if the promise resolves with a
    string then the events began with data chunks only, followed by a close
    with exit code 0; those chunks add up to at most 10 MiB and the string
    is their decoded concatenation.  No output over the limit is ever
    returned. *)
Theorem xz_resolves_only_within_limit (events : list XzEvent) (str : string) :
  resolved (run events) = Some (Some str) ->
  exists cs rest,
    events = map Data cs ++ Close (Some 0) :: rest /\
    Z.of_nat (List.length (List.concat cs)) <= MAX_DECOMPRESSED_SIZE /\
    decode (List.concat cs) = Some str.
Proof.
  induction events as [| e events IH] using rev_ind.
  - intros H. discriminate H.
  - rewrite run_snoc. intros Hres.
    destruct (settled (run events)) eqn:Hprev.
    + destruct (step_settled (run events) e Hprev) as [_ Hsame].
      rewrite Hsame in Hres.
      destruct (IH Hres) as [cs [rest [Hev [Hle Hdec]]]].
      exists cs, (rest ++ [e]). rewrite Hev, <- app_assoc.
      repeat split; assumption.
    + destruct (unsettled_run events Hprev) as [cs [Hev [Hcs [Htot [Hle _]]]]].
      destruct e as [| chunk | code |]; unfold xz_step in Hres.
      * rewrite settle_fresh in Hres by exact Hprev. discriminate Hres.
      * cbv zeta in Hres.
        destruct (totalSize (run events) + Z.of_nat (List.length chunk)
                  >? MAX_DECOMPRESSED_SIZE).
        -- rewrite settle_fresh in Hres by exact Hprev. discriminate Hres.
        -- cbn [resolved] in Hres.
           destruct (unsettled_run events Hprev) as [_ [_ [_ [_ [_ Hnone]]]]].
           congruence.
      * destruct (totalSize (run events) >? MAX_DECOMPRESSED_SIZE);
          [rewrite settle_fresh in Hres by exact Hprev; discriminate Hres |].
        destruct code as [[| c | c] |];
          rewrite settle_fresh in Hres by exact Hprev;
          try discriminate Hres.
        injection Hres as Hdec.
        rewrite Hcs in Hdec. exists cs, []. rewrite <- Hev.
        repeat split; [lia | exact Hdec].
      * rewrite settle_fresh in Hres by exact Hprev. discriminate Hres.
Qed.

(** X19. The promise of [decompressXz] is settled once: after it has been
    resolved, no later event changes the value it was resolved with. *)
Theorem xz_first_settle_wins (events later : list XzEvent)
        (value : option string) :
  resolved (run events) = Some value ->
  resolved (run (events ++ later)) = Some value.
Proof.
  intros Hres.
  assert (Hs : settled (run events) = true).
  { destruct (settled (run events)) eqn:Hprev; [reflexivity |].
    destruct (unsettled_run events Hprev) as [_ [_ [_ [_ [_ Hnone]]]]].
    congruence. }
  induction later as [| e later IH] using rev_ind.
  - rewrite app_nil_r. exact Hres.
  - rewrite app_assoc, run_snoc.
    assert (Hs' : settled (run (events ++ later)) = true).
    { destruct (settled (run (events ++ later))) eqn:Hprev; [reflexivity |].
      destruct (unsettled_run _ Hprev) as [_ [_ [_ [_ [_ Hnone]]]]].
      congruence. }
    destruct (step_settled _ e Hs') as [_ Hsame]. rewrite Hsame. exact IH.
Qed.

End XzFacts.

Lemma xz_resolves_only_within_limit_witness :
  exists cs rest,
    [Data [104; 105]; Close (Some 0); Timeout]
    = map Data cs ++ Close (Some 0) :: rest /\
    Z.of_nat (List.length (List.concat cs)) <= MAX_DECOMPRESSED_SIZE.
Proof.
  destruct (xz_resolves_only_within_limit
              (fun bytes => Some "hi"%string)
              [Data [104; 105]; Close (Some 0); Timeout] "hi"%string eq_refl)
    as [cs [rest [H1 [H2 _]]]].
  exists cs, rest. split; assumption.
Defined.

Lemma xz_first_settle_wins_witness :
  resolved (xz_run (fun bytes => Some "hi"%string)
                   ([Data [104; 105]; Close (Some 0)] ++ [Timeout; Error]))
  = Some (Some "hi"%string).
Proof.
  apply (xz_first_settle_wins (fun bytes => Some "hi"%string)
           [Data [104; 105]; Close (Some 0)] [Timeout; Error]).
  reflexivity.
Defined.

End LzmaFacts.

(* ------------------------------------------------------------------ *)
(** ** Chunked conversion of bytes to a string *)

Module Base64Facts.
Import Base64.
Local Open Scope list_scope.

Lemma CHUNK_SIZE_pos : (0 < CHUNK_SIZE)%nat.
Proof. unfold CHUNK_SIZE. lia. Qed.

Lemma append_empty_r (s : string) : (s ++ "")%string = s.
Proof. induction s as [| c s IH]; simpl; [reflexivity | rewrite IH; reflexivity]. Qed.

Lemma append_assoc (a b c : string) :
  ((a ++ b) ++ c)%string = (a ++ (b ++ c))%string.
Proof. induction a as [| x a IH]; simpl; [reflexivity | rewrite IH; reflexivity]. Qed.

Lemma join_cons (s : string) (chunks : list string) :
  join (s :: chunks) = (s ++ join chunks)%string.
Proof.
  unfold join. destruct chunks as [| t chunks]; simpl.
  - rewrite append_empty_r. reflexivity.
  - reflexivity.
Qed.

Lemma join_snoc (chunks : list string) (s : string) :
  join (chunks ++ [s]) = (join chunks ++ s)%string.
Proof.
  induction chunks as [| t chunks IH].
  - simpl. reflexivity.
  - change ((t :: chunks) ++ [s]) with (t :: (chunks ++ [s])).
    rewrite !join_cons, IH, append_assoc. reflexivity.
Qed.

Lemma fromCharCode_app (a b : list Byte.byte) :
  fromCharCode (a ++ b) = (fromCharCode a ++ fromCharCode b)%string.
Proof.
  unfold fromCharCode.
  induction a as [| x a IH]; [reflexivity |].
  change (String (ascii_of_byte x) (string_of_list_byte (a ++ b))
          = String (ascii_of_byte x)
                   (string_of_list_byte a ++ string_of_list_byte b)%string).
  rewrite IH. reflexivity.
Qed.

Lemma length_fromCharCode (a : list Byte.byte) :
  String.length (fromCharCode a) = List.length a.
Proof.
  unfold fromCharCode.
  induction a as [| x a IH]; [reflexivity |].
  change (S (String.length (string_of_list_byte a)) = S (List.length a)).
  rewrite IH. reflexivity.
Qed.

Lemma subarray_chunk (i : nat) (bytes : list Byte.byte) :
  subarray i (i + CHUNK_SIZE) bytes = firstn CHUNK_SIZE (skipn i bytes).
Proof. unfold subarray. replace (i + CHUNK_SIZE - i)%nat with CHUNK_SIZE by lia. reflexivity. Qed.

(** The loop with enough fuel left: what it adds to [chunks] spells the
    bytes from [i] on, in pieces of at most [CHUNK_SIZE] characters. *)
Lemma chunk_loop_spec (bytes : list Byte.byte) :
  forall (fuel i : nat) (chunks : list string),
    (List.length bytes <= i + fuel)%nat ->
    Forall (fun s => (String.length s <= CHUNK_SIZE)%nat) chunks ->
    join (chunk_loop fuel i bytes chunks)
      = (join chunks ++ fromCharCode (skipn i bytes))%string /\
    Forall (fun s => (String.length s <= CHUNK_SIZE)%nat)
           (chunk_loop fuel i bytes chunks).
Proof.
  induction fuel as [| fuel IH]; intros i chunks Hfuel Hsmall.
  - simpl. rewrite skipn_all2 by lia. simpl. rewrite append_empty_r.
    split; [reflexivity | exact Hsmall].
  - cbn [chunk_loop]. destruct (Nat.ltb_spec i (List.length bytes)) as [Hlt | Hge].
    + pose proof CHUNK_SIZE_pos as Hpos.
      destruct (IH (i + CHUNK_SIZE)%nat
                   (chunks ++ [fromCharCode (subarray i (i + CHUNK_SIZE) bytes)]))
        as [Hjoin Hall].
      * lia.
      * apply Forall_app. split; [exact Hsmall |].
        constructor; [| constructor].
        rewrite length_fromCharCode, subarray_chunk, length_firstn. lia.
      * split; [| exact Hall].
        rewrite Hjoin, join_snoc, append_assoc, <- fromCharCode_app.
        rewrite subarray_chunk, Nat.add_comm, <- skipn_skipn, firstn_skipn.
        reflexivity.
    + rewrite skipn_all2 by lia. simpl. rewrite append_empty_r.
      split; [reflexivity | exact Hsmall].
Qed.

Section EncodeFacts.

Variable btoa : string -> string.

(** X20. Cutting the bytes into chunks loses nothing: the string handed to
    [btoa] has one character per byte of the buffer, in order, for a buffer
    of any length; and no chunk passed to [String.fromCharCode] is longer
    than 8192 bytes. *)
Theorem arrayBufferToBase64_encodes_every_byte (buffer : list Byte.byte) :
  arrayBufferToBase64 btoa buffer = btoa (fromCharCode buffer) /\
  list_byte_of_string (join (chunks_of buffer)) = buffer /\
  Forall (fun s => (String.length s <= CHUNK_SIZE)%nat) (chunks_of buffer).
Proof.
  destruct (chunk_loop_spec buffer (List.length buffer) 0 []) as [Hjoin Hall].
  - lia.
  - constructor.
  - assert (H : join (chunks_of buffer) = fromCharCode buffer)
      by exact Hjoin.
    unfold arrayBufferToBase64. rewrite H. split; [reflexivity | split].
    + apply list_byte_of_string_of_list_byte.
    + exact Hall.
Qed.

End EncodeFacts.

End Base64Facts.

(* ------------------------------------------------------------------ *)
(** ** The policy in development and in production *)

Module CspFacts.
Import Csp.
Local Open Scope list_scope.

(** X21. What the development switch changes in the policy, and what it
    does not: ['unsafe-inline'] and the [ws://] source are in the policy
    exactly when [isDev] is set, ['unsafe-eval'] never is, the eight base
    directives are in it either way, and no directive key occurs twice. *)
Theorem buildCsp_dev_switch (isDev : bool) :
  includes "'unsafe-inline'" (buildCsp isDev) = isDev /\
  includes "ws://" (buildCsp isDev) = isDev /\
  includes "unsafe-eval" (buildCsp isDev) = false /\
  forallb (fun d => includes d (buildCsp isDev)) BASE_DIRECTIVES = true /\
  NoDup (map directive_key (directives isDev)).
Proof.
  destruct isDev.
  - repeat split; try reflexivity.
    vm_compute.
    repeat (constructor; [simpl; intuition discriminate |]). constructor.
  - repeat split; try reflexivity.
    vm_compute.
    repeat (constructor; [simpl; intuition discriminate |]). constructor.
Qed.

End CspFacts.

(* ------------------------------------------------------------------ *)
(** ** The time stamp has fixed columns *)

Module TimestampFacts.
Import Timestamp.

Lemma pad_all :
  Range.all1 100 (fun n =>
    match pad n with
    | String a (String b EmptyString) =>
        match read (String a (String b EmptyString)) with
        | Some m => m =? n
        | None => false
        end
    | _ => false
    end) = true.
Proof. vm_compute. reflexivity. Qed.

Lemma year_all :
  Range.all1 (Z.to_nat 10000) (fun n =>
    (n <? 1000) ||
    match String_of n with
    | String a (String b (String c (String d EmptyString))) =>
        match read (String a (String b (String c (String d EmptyString)))) with
        | Some m => m =? n
        | None => false
        end
    | _ => false
    end) = true.
Proof. vm_compute. reflexivity. Qed.

(** A number below 100 is padded to two digits that read back as it. *)
Lemma pad_two_digits (n : Z) :
  0 <= n < 100 ->
  exists a b, pad n = String a (String b EmptyString) /\
              read (String a (String b EmptyString)) = Some n.
Proof.
  intros Hn. pose proof (RangeFacts.all1_spec _ _ pad_all n Hn) as H.
  cbv beta in H.
  destruct (pad n) as [| a [| b [| c s]]]; try discriminate H.
  exists a, b. split; [reflexivity |].
  destruct (read (String a (String b EmptyString))) as [m |];
    [| discriminate H].
  apply Z.eqb_eq in H. subst m. reflexivity.
Qed.

Lemma year_four_digits (n : Z) :
  1000 <= n <= 9999 ->
  exists a b c d,
    String_of n = String a (String b (String c (String d EmptyString))) /\
    read (String a (String b (String c (String d EmptyString)))) = Some n.
Proof.
  intros Hn.
  assert (Hr : 0 <= n < Z.of_nat (Z.to_nat 10000)) by lia.
  pose proof (RangeFacts.all1_spec _ _ year_all n Hr) as H.
  cbv beta in H. apply orb_true_iff in H. destruct H as [H | H].
  { apply Z.ltb_lt in H. lia. }
  destruct (String_of n) as [| a [| b [| c [| d [| e s]]]]]; try discriminate H.
  exists a, b, c, d. split; [reflexivity |].
  destruct (read (String a (String b (String c (String d EmptyString)))))
    as [m |]; [| discriminate H].
  apply Z.eqb_eq in H. subst m. reflexivity.
Qed.



End TimestampFacts.

(* ------------------------------------------------------------------ *)
(** ** What the start-up notification shows *)

Module StartupNotificationFacts.
Import StartupNotification.
Local Open Scope list_scope.

Section HookFacts.

Variable AppNotification : Type.
Variable publishedAt : AppNotification -> string.
Variable getTime : string -> option Z.

Local Notation "'fetched'" := (onFetched publishedAt getTime).
Local Notation "'start'" := (initial AppNotification).
Local Notation "'isNewer'" := (newer publishedAt getTime).
Local Notation "'timeOf'" := (time publishedAt getTime).
Local Notation "'sorted'" := (sort publishedAt getTime).
Local Notation "'seenTs'" := (lastSeenTs getTime).
Local Notation "'dated'" := (dated publishedAt getTime).
Local Notation "'newest_first'" := (newest_first publishedAt getTime).

Lemma newer_dated (ts : Z) (n : AppNotification) :
  isNewer ts n = true -> dated n /\ ts < timeOf n.
Proof.
  unfold newer, time, dated. destruct (getTime (publishedAt n)) as [t |].
  - intros H. split; [discriminate | lia].
  - discriminate.
Qed.

Lemma newer_of_time (ts : Z) (n : AppNotification) :
  dated n -> ts < timeOf n -> isNewer ts n = true.
Proof.
  unfold newer, time, dated. destruct (getTime (publishedAt n)) as [t |].
  - intros _ H. lia.
  - intros H. contradiction H. reflexivity.
Qed.

Lemma compare_dated (a b : AppNotification) :
  dated a -> dated b ->
  compare publishedAt getTime a b = timeOf b - timeOf a.
Proof.
  unfold compare, time, dated.
  destruct (getTime (publishedAt a)), (getTime (publishedAt b)); congruence.
Qed.

Lemma insert_perm (a : AppNotification) (l : list AppNotification) :
  Permutation (insert publishedAt getTime a l) (a :: l).
Proof.
  induction l as [| b l IH]; cbn [insert].
  - apply Permutation_refl.
  - destruct (compare publishedAt getTime a b <=? 0).
    + apply Permutation_refl.
    + apply perm_trans with (b :: a :: l).
      * apply perm_skip, IH.
      * apply perm_swap.
Qed.

Lemma sort_perm (l : list AppNotification) : Permutation (sorted l) l.
Proof.
  induction l as [| a l IH]; cbn [sort fold_right].
  - apply perm_nil.
  - apply perm_trans with (a :: sorted l).
    + apply insert_perm.
    + apply perm_skip, IH.
Qed.

Lemma insert_sorted (a : AppNotification) (l : list AppNotification) :
  dated a -> Forall dated l -> newest_first l ->
  newest_first (insert publishedAt getTime a l).
Proof.
  intros Ha Hl Hs. induction Hs as [| b l Hs IH Hb]; cbn [insert].
  - constructor; [constructor | constructor].
  - inversion Hl as [| ? ? Hdb Hdl]; subst.
    rewrite (compare_dated a b Ha Hdb).
    destruct (Z.leb_spec (timeOf b - timeOf a) 0) as [Hle | Hgt].
    + constructor; [constructor; assumption |].
      constructor; [lia |].
      eapply Forall_impl; [| exact Hb]. cbv beta. intros c Hc. lia.
    + constructor; [apply IH; exact Hdl |].
      apply (Permutation_Forall (Permutation_sym (insert_perm a l))).
      constructor; [lia | exact Hb].
Qed.

Lemma sort_sorted (l : list AppNotification) :
  Forall dated l -> newest_first (sorted l).
Proof.
  induction l as [| a l IH]; intros Hl; cbn [sort fold_right].
  - constructor.
  - inversion Hl as [| ? ? Ha Hl']; subst.
    apply insert_sorted; [exact Ha | | apply IH; exact Hl'].
    apply (Permutation_Forall (Permutation_sym (sort_perm l))). exact Hl'.
Qed.

Lemma filter_newer_dated (ts : Z) (ns : list AppNotification) :
  Forall dated (filter (isNewer ts) ns).
Proof.
  apply Forall_forall. intros n Hn. apply filter_In in Hn.
  destruct Hn as [_ Hn]. apply (newer_dated ts n Hn).
Qed.

(** What an accepted answer leaves in the state. *)
Lemma fetched_shown (lastSeen : option string)
      (result : FetchResult AppNotification) (ns : list AppNotification) :
  success result = true -> notifications result = Some ns ->
  shown (fetched lastSeen result start)
    = sorted (filter (isNewer (seenTs lastSeen)) ns) /\
  visible (fetched lastSeen result start)
    = negb (List.length (shown (fetched lastSeen result start)) =? 0)%nat.
Proof.
  intros Hok Hns. unfold onFetched. rewrite Hns, Hok. cbn [negb orb].
  destruct ns as [| n ns']; [split; reflexivity |].
  change (List.length (n :: ns') =? 0)%nat with false. cbv iota zeta.
  remember (sorted (filter (isNewer (seenTs lastSeen)) (n :: ns'))) as l eqn:El.
  destruct l as [| m l']; split; reflexivity.
Qed.

Lemma fetched_refused (lastSeen : option string)
      (result : FetchResult AppNotification) (s : State AppNotification) :
  success result = false \/ notifications result = None ->
  fetched lastSeen result s = s.
Proof.
  intros [H | H]; unfold onFetched.
  - rewrite H. destruct (notifications result); reflexivity.
  - rewrite H. reflexivity.
Qed.

(** X23. What the hook shows after an accepted fetch: exactly the fetched
    notifications published after the last one seen, each once, newest
    first; and the panel is visible exactly when there is one. *)
Theorem fetched_shows_the_unseen_newest_first (lastSeen : option string)
        (result : FetchResult AppNotification) (ns : list AppNotification) :
  success result = true ->
  notifications result = Some ns ->
  let s := fetched lastSeen result start in
  Permutation (shown s) (filter (isNewer (seenTs lastSeen)) ns) /\
  newest_first (shown s) /\
  (forall n, In n (shown s) <->
             In n ns /\ dated n /\ seenTs lastSeen < timeOf n) /\
  (visible s = true <-> shown s <> []).
Proof.
  intros Hok Hns s.
  destruct (fetched_shown lastSeen result ns Hok Hns) as [Hshown Hvis].
  fold s in Hshown, Hvis.
  assert (Hperm : Permutation (shown s) (filter (isNewer (seenTs lastSeen)) ns))
    by (rewrite Hshown; apply sort_perm).
  split; [exact Hperm | split; [| split]].
  - rewrite Hshown. apply sort_sorted, filter_newer_dated.
  - intros n. split.
    + intros Hin. apply (Permutation_in _ Hperm) in Hin.
      apply filter_In in Hin. destruct Hin as [Hin Hnew].
      destruct (newer_dated _ _ Hnew). tauto.
    + intros [Hin [Hd Hlt]].
      apply (Permutation_in _ (Permutation_sym Hperm)).
      apply filter_In. split; [exact Hin | apply newer_of_time; assumption].
  - rewrite Hvis. destruct (shown s); cbn; split; congruence.
Qed.

(** The setting [dismiss] writes is the date of the newest notification
    shown, and it reads back as that time. *)
Lemma dismiss_setting (s : State AppNotification) (n : AppNotification)
      (rest : list AppNotification) :
  getTime ""%string = None ->
  shown s = n :: rest -> dated n ->
  seenTs (snd (dismiss publishedAt s)) = timeOf n.
Proof.
  intros Hempty Hs Hd. unfold dismiss. cbn [snd]. rewrite Hs.
  unfold lastSeenTs, time. unfold StartupNotification.dated in Hd.
  destruct (String.eqb_spec (publishedAt n) "") as [E | _].
  - rewrite E in Hd. contradiction.
  - destruct (getTime (publishedAt n)); [reflexivity |].
    contradiction Hd. reflexivity.
Qed.

(** X24. A dismissed notification does not come back.  If a fetch made the
    panel visible and the user dismisses it, then after any later accepted
    fetch, read with the setting [dismiss] wrote, every notification shown
    is strictly newer than every one shown before; fetching the same list
    again shows nothing. *)
Theorem dismissed_notifications_stay_away (lastSeen : option string)
        (result later : FetchResult AppNotification)
        (ns ns' : list AppNotification) :
  getTime ""%string = None ->
  success result = true -> notifications result = Some ns ->
  success later = true -> notifications later = Some ns' ->
  let s := fetched lastSeen result start in
  visible s = true ->
  let setting := snd (dismiss publishedAt s) in
  (forall old new, In old (shown s) ->
                   In new (shown (fetched setting later start)) ->
                   timeOf old < timeOf new) /\
  fetched setting result start = start.
Proof.
  intros Hempty Hok Hns Hok' Hns' s Hvis setting.
  destruct (fetched_shown lastSeen result ns Hok Hns) as [Hshown Hv].
  fold s in Hshown, Hv.
  assert (Hsorted : newest_first (shown s))
    by (rewrite Hshown; apply sort_sorted, filter_newer_dated).
  assert (Hperm : Permutation (shown s) (filter (isNewer (seenTs lastSeen)) ns))
    by (rewrite Hshown; apply sort_perm).
  destruct (shown s) as [| top rest] eqn:Es.
  { rewrite Hvis in Hv. discriminate Hv. }
  assert (Htop : isNewer (seenTs lastSeen) top = true).
  { assert (Hin : In top (filter (isNewer (seenTs lastSeen)) ns))
      by (apply (Permutation_in _ Hperm); left; reflexivity).
    apply filter_In in Hin. tauto. }
  destruct (newer_dated _ _ Htop) as [Hdtop Hlt].
  assert (Hset : seenTs setting = timeOf top)
    by (exact (dismiss_setting s top rest Hempty Es Hdtop)).
  assert (Hmax : forall old, In old (top :: rest) -> timeOf old <= timeOf top).
  { intros old [<- | Hin]; [lia |].
    inversion Hsorted as [| ? ? _ Hall]; subst.
    rewrite Forall_forall in Hall. apply Hall, Hin. }
  split.
  - intros old new Hold Hnew.
    destruct (fetched_shown setting later ns' Hok' Hns') as [Hshown' _].
    rewrite Hshown' in Hnew.
    apply (Permutation_in _ (sort_perm _)) in Hnew.
    apply filter_In in Hnew. destruct Hnew as [_ Hnew].
    apply newer_dated in Hnew. destruct Hnew as [_ Hnew].
    specialize (Hmax old Hold). lia.
  - assert (Hnone : filter (isNewer (seenTs setting)) ns = []).
    { destruct (filter (isNewer (seenTs setting)) ns) as [| n l] eqn:Ef;
        [reflexivity |].
      assert (Hin : In n (filter (isNewer (seenTs setting)) ns))
        by (rewrite Ef; left; reflexivity).
      apply filter_In in Hin. destruct Hin as [Hin Hnew].
      destruct (newer_dated _ _ Hnew) as [Hd Hgt].
      assert (Hwas : In n (top :: rest)).
      { apply (Permutation_in _ (Permutation_sym Hperm)).
        apply filter_In. split; [exact Hin |].
        apply newer_of_time; [exact Hd | lia]. }
      specialize (Hmax n Hwas). lia. }
    unfold onFetched. rewrite Hns, Hok. cbn [negb orb].
    destruct (List.length ns =? 0)%nat; [reflexivity |].
    cbv zeta. rewrite Hnone. reflexivity.
Qed.

End HookFacts.

(** Notifications that are their own date, read by a clock that counts
    the characters and cannot read the empty string. *)
Local Notation "'clock'" :=
  (fun s : string => if (s =? "")%string then None
                     else Some (Z.of_nat (String.length s))).
Local Notation "'feed'" := (mkResult true (Some ["aa"; "a"; "aaa"]%string)).

Lemma fetched_shows_the_unseen_newest_first_witness :
  newest_first (fun n => n) clock
    (shown (onFetched (fun n => n) clock (Some "a"%string) feed
                      (initial string))).
Proof.
  pose proof (fetched_shows_the_unseen_newest_first string (fun n => n) clock
                (Some "a"%string) feed
                ["aa"; "a"; "aaa"]%string eq_refl eq_refl) as H.
  cbv zeta in H. exact (proj1 (proj2 H)).
Defined.

Lemma dismissed_notifications_stay_away_witness :
  onFetched (fun n => n) clock
    (snd (dismiss (fun n => n)
            (onFetched (fun n => n) clock (Some "a"%string) feed
                       (initial string))))
    feed (initial string)
  = initial string.
Proof.
  pose proof (dismissed_notifications_stay_away string (fun n => n) clock
                (Some "a"%string) feed feed
                ["aa"; "a"; "aaa"]%string ["aa"; "a"; "aaa"]%string
                eq_refl eq_refl eq_refl eq_refl eq_refl) as H.
  cbv zeta in H. exact (proj2 (H eq_refl)).
Defined.

End StartupNotificationFacts.

(* ------------------------------------------------------------------ *)
(** ** The bounding box and the pages of the export, continued *)

Module BoundsFacts.
Import KeymapPdf.
Local Open Scope list_scope.

Section Order.

Variable number : Type.
Variable zero infinity neg_infinity : number.
Variable add sub : number -> number -> number.
Variable lt_num gt_num : number -> number -> bool.

(** [<] and [>] on JavaScript numbers are irreflexive and transitive, also
    when [NaN] or the infinities are among the operands. *)
Hypothesis lt_irrefl : forall a, lt_num a a = false.
Hypothesis lt_trans :
  forall a b c, lt_num a b = true -> lt_num b c = true -> lt_num a c = true.
Hypothesis gt_irrefl : forall a, gt_num a a = false.
Hypothesis gt_trans :
  forall a b c, gt_num a b = true -> gt_num b c = true -> gt_num a c = true.

Local Notation "'bounds'" :=
  (computeBounds zero infinity neg_infinity add sub lt_num gt_num).

Local Notation "'step'" :=
  (fun (acc : number * number * number * number) (key : KleKey.t number) =>
     let '(minX, minY, maxX, maxY) := acc in
     let minX := if lt_num (KleKey.x key) minX then KleKey.x key else minX in
     let minY := if lt_num (KleKey.y key) minY then KleKey.y key else minY in
     let maxX :=
       if gt_num (add (KleKey.x key) (KleKey.width key)) maxX
       then add (KleKey.x key) (KleKey.width key) else maxX in
     let maxY :=
       if gt_num (add (KleKey.y key) (KleKey.height key)) maxY
       then add (KleKey.y key) (KleKey.height key) else maxY in
     (minX, minY, maxX, maxY)).

Local Notation "'inside'" := (PdfPage.inside add lt_num gt_num).

Lemma min_keeps (a m n : number) :
  lt_num a m = false ->
  lt_num a (if lt_num n m then n else m) = false.
Proof.
  intros Ha. destruct (lt_num n m) eqn:Hn; [| exact Ha].
  destruct (lt_num a n) eqn:Han; [| reflexivity].
  rewrite (lt_trans a n m Han Hn) in Ha. discriminate Ha.
Qed.

Lemma min_new (m n : number) :
  lt_num n (if lt_num n m then n else m) = false.
Proof. destruct (lt_num n m) eqn:Hn; [apply lt_irrefl | exact Hn]. Qed.

Lemma max_keeps (a m n : number) :
  gt_num a m = false ->
  gt_num a (if gt_num n m then n else m) = false.
Proof.
  intros Ha. destruct (gt_num n m) eqn:Hn; [| exact Ha].
  destruct (gt_num a n) eqn:Han; [| reflexivity].
  rewrite (gt_trans a n m Han Hn) in Ha. discriminate Ha.
Qed.

Lemma max_new (m n : number) :
  gt_num n (if gt_num n m then n else m) = false.
Proof. destruct (gt_num n m) eqn:Hn; [apply gt_irrefl | exact Hn]. Qed.

Lemma step_inside (acc : number * number * number * number)
      (key : KleKey.t number) :
  inside (step acc key) key /\
  forall k, inside acc k -> inside (step acc key) k.
Proof.
  destruct acc as [[[minX minY] maxX] maxY]. unfold PdfPage.inside. split.
  - repeat split; (apply min_new || apply max_new).
  - intros k [H1 [H2 [H3 H4]]].
    repeat split; (apply min_keeps || apply max_keeps); assumption.
Qed.

Lemma loop_inside (ks : list (KleKey.t number)) :
  forall (seen : list (KleKey.t number))
         (acc : number * number * number * number),
    Forall (inside acc) seen ->
    Forall (inside (fold_left step ks acc)) (seen ++ ks).
Proof.
  induction ks as [| key ks IH]; intros seen acc Hseen.
  - rewrite app_nil_r. exact Hseen.
  - cbn [fold_left].
    change (seen ++ key :: ks) with (seen ++ [key] ++ ks).
    rewrite app_assoc. apply IH.
    destruct (step_inside acc key) as [Hnew Hold].
    apply Forall_app. split.
    + eapply Forall_impl; [| exact Hseen]. exact Hold.
    + constructor; [exact Hnew | constructor].
Qed.

(** X25. The box [computeBounds] returns for at least one key encloses
    every key: no key starts left of [minX] or above [minY], and there are
    a right edge and a bottom edge, from which [width] and [height] are
    measured, that no key reaches beyond. *)
Theorem computeBounds_encloses_every_key (ks : list (KleKey.t number)) :
  ks <> [] ->
  exists maxX maxY,
    Bounds.width (bounds ks) = sub maxX (Bounds.minX (bounds ks)) /\
    Bounds.height (bounds ks) = sub maxY (Bounds.minY (bounds ks)) /\
    Forall (inside (Bounds.minX (bounds ks), Bounds.minY (bounds ks),
                    maxX, maxY)) ks.
Proof.
  intros Hne. destruct ks as [| key ks]; [contradiction Hne; reflexivity |].
  pose proof (loop_inside (key :: ks) []
                (infinity, infinity, neg_infinity, neg_infinity)
                (Forall_nil _)) as H.
  unfold computeBounds.
  destruct (fold_left step (key :: ks)
              (infinity, infinity, neg_infinity, neg_infinity))
    as [[[minX minY] maxX] maxY].
  exists maxX, maxY. cbn [Bounds.width Bounds.height Bounds.minX Bounds.minY].
  repeat split. exact H.
Qed.

End Order.

(** Keys on an integer grid. *)
Lemma computeBounds_encloses_every_key_witness :
  exists maxX maxY,
    Forall (PdfPage.inside Z.add Z.ltb Z.gtb (0, 0, maxX, maxY))
           [KleKey.mk 0 0 1 1 0 0 (-1) 0; KleKey.mk 1 0 2 1 0 1 (-1) 0].
Proof.
  destruct (computeBounds_encloses_every_key Z 0 1000000 (-1000000)
              Z.add Z.sub Z.ltb Z.gtb
              Z.ltb_irrefl
              (fun a b c Hab Hbc =>
                 proj2 (Z.ltb_lt a c)
                   (Z.lt_trans a b c (proj1 (Z.ltb_lt a b) Hab)
                                     (proj1 (Z.ltb_lt b c) Hbc)))
              (fun a => eq_trans (Z.gtb_ltb a a) (Z.ltb_irrefl a))
              (fun a b c Hab Hbc =>
                 eq_trans (Z.gtb_ltb a c)
                   (proj2 (Z.ltb_lt c a)
                      (Z.lt_trans c b a
                         (proj1 (Z.ltb_lt c b) (eq_trans (eq_sym (Z.gtb_ltb b c)) Hbc))
                         (proj1 (Z.ltb_lt b a) (eq_trans (eq_sym (Z.gtb_ltb a b)) Hab)))))
              [KleKey.mk 0 0 1 1 0 0 (-1) 0; KleKey.mk 1 0 2 1 0 1 (-1) 0])
    as [maxX [maxY [_ [_ H]]]].
  - discriminate.
  - exists maxX, maxY. exact H.
Defined.

End BoundsFacts.

Module PdfPageFacts.
Import KeymapPdf PdfPage.
Local Open Scope list_scope.

Section Pages.

Variable number : Type.
Variable zero infinity neg_infinity : number.
Variable add sub : number -> number -> number.
Variable lt_num gt_num : number -> number -> bool.
Variable is_zero : number -> bool.
Variable LayoutOptions : Type.
Variable filterVisibleKeys :
  list (KleKey.t number) -> LayoutOptions -> list (KleKey.t number).
Variable sanitizeLabel trim : string -> string.
Variable timestamp : string.

Local Notation "'exportPdf'" :=
  (generateKeymapPdf zero infinity neg_infinity add sub lt_num gt_num is_zero
                     filterVisibleKeys sanitizeLabel trim timestamp).
Local Notation "'degenerateBounds'" :=
  (degenerate zero infinity neg_infinity add sub lt_num gt_num is_zero
              filterVisibleKeys).
Local Notation "'pageOfLayer'" :=
  (layerPage filterVisibleKeys sanitizeLabel trim timestamp).
Local Notation "'footerOf'" := (footerText sanitizeLabel trim timestamp).
Local Notation "'visible'" :=
  (fun input : PdfExportInput number LayoutOptions =>
     filterVisibleKeys (keys input) (layoutOptions input)).

(** The pages of an export with a proper bounding box and at least one
    layer. *)
Lemma export_pages (input : PdfExportInput number LayoutOptions) :
  1 <= layers input ->
  degenerateBounds input = false ->
  pages (exportPdf input)
  = map (pageOfLayer input) (layer_indices (layers input)).
Proof.
  intros Hlayers Hbox.
  unfold generateKeymapPdf. unfold degenerate in Hbox. rewrite Hbox.
  replace (layers input) with (Z.of_nat (S (Z.to_nat (layers input - 1))))
    by lia.
  rewrite KeymapPdfFacts.layer_loop. unfold getNumberOfPages. cbn [pages].
  match goal with
  | |- pages (fold_left _ (seq 1 (List.length ?ps)) ?d) = _ =>
      exact (eq_trans
               (KeymapPdfFacts.footer_loop number (footerOf input) ps d []
                                           eq_refl)
               (map_map _ _ _))
  end.
Qed.

(** X26. Without layers the layer loop does not run: an export with a
    proper bounding box and a layer count of zero or less is a document of
    the fitted paper size with the one page it was created with, and all
    that page holds is the footer. *)
Theorem generateKeymapPdf_without_layers
        (input : PdfExportInput number LayoutOptions) :
  layers input <= 0 ->
  degenerateBounds input = false ->
  pages (exportPdf input) = [[Footer (footerOf input)]] /\
  format (exportPdf input)
  = FitBounds (computeBounds zero infinity neg_infinity add sub lt_num gt_num
                             (visible input)).
Proof.
  intros Hlayers Hbox.
  unfold generateKeymapPdf. unfold degenerate in Hbox. rewrite Hbox.
  unfold layer_indices.
  replace (Z.to_nat (layers input)) with 0%nat by lia.
  split; reflexivity.
Qed.

Lemma filter_split {A : Type} (f : A -> bool) (l : list A) :
  Permutation (filter f l ++ filter (fun a => negb (f a)) l) l.
Proof.
  induction l as [| a l IH]; [apply perm_nil |].
  cbn [filter]. destruct (f a); cbn [negb].
  - apply perm_skip, IH.
  - apply Permutation_sym, Permutation_cons_app, Permutation_sym, IH.
Qed.

Lemma drawn_keys_app (p q : Page number) :
  drawn_keys (p ++ q) = drawn_keys p ++ drawn_keys q.
Proof. unfold drawn_keys. apply flat_map_app. Qed.

Lemma drawn_keys_DrawKey (layer : Z) (ks : list (KleKey.t number)) :
  drawn_keys (map (DrawKey layer) ks) = ks.
Proof.
  unfold drawn_keys. induction ks as [| k ks IH]; [reflexivity |].
  cbn [map flat_map drawn_key app]. rewrite IH. reflexivity.
Qed.

Lemma drawn_keys_DrawEncoder (layer : Z) (ks : list (KleKey.t number)) :
  drawn_keys (map (DrawEncoder layer) ks) = ks.
Proof.
  unfold drawn_keys. induction ks as [| k ks IH]; [reflexivity |].
  cbn [map flat_map drawn_key app]. rewrite IH. reflexivity.
Qed.

(** The keys on the page of a layer and how each was drawn. *)
Lemma layerPage_keys (input : PdfExportInput number LayoutOptions) (layer : Z) :
  Permutation (drawn_keys (pageOfLayer input layer)) (visible input) /\
  forallb (drawn_as_its_kind layer) (pageOfLayer input layer) = true.
Proof.
  unfold layerPage, layerBody. cbv zeta. split.
  - rewrite !drawn_keys_app, drawn_keys_DrawKey, drawn_keys_DrawEncoder.
    cbn [drawn_keys flat_map drawn_key app]. rewrite app_nil_r.
    apply filter_split.
  - rewrite !forallb_app. cbn [forallb drawn_as_its_kind].
    rewrite Z.eqb_refl. cbn [andb].
    rewrite andb_true_r. apply andb_true_iff. split.
    + apply forallb_forall. intros op Hop. apply in_map_iff in Hop.
      destruct Hop as [k [<- Hk]]. apply filter_In in Hk.
      cbn [drawn_as_its_kind]. rewrite Z.eqb_refl. apply Hk.
    + apply forallb_forall. intros op Hop. apply in_map_iff in Hop.
      destruct Hop as [k [<- Hk]]. apply filter_In in Hk.
      cbn [drawn_as_its_kind]. rewrite Z.eqb_refl. apply Hk.
Qed.


End Pages.

(** The exports on an integer grid: one 1x1 key and one encoder. *)
Local Notation "'gridExport'" :=
  (generateKeymapPdf 0 1000000 (-1000000) Z.add Z.sub Z.ltb Z.gtb (Z.eqb 0)
     (fun ks (_ : unit) => ks) (fun s => s) (fun s => s) "2024-01-01 00:00").
Local Notation "'gridKeys'" :=
  [KleKey.mk 0 0 1 1 0 0 (-1) 0; KleKey.mk 1 0 1 1 0 1 0 0].

Lemma generateKeymapPdf_without_layers_witness :
  pages (gridExport (mkInput "kb" 0 gridKeys tt))
  = [[Footer ("kb - Exported 2024-01-01 00:00 by Pipette")]].
Proof.
  refine (proj1 (generateKeymapPdf_without_layers
                   Z 0 1000000 (-1000000) Z.add Z.sub Z.ltb Z.gtb (Z.eqb 0) unit
                   (fun ks _ => ks) (fun s => s) (fun s => s) "2024-01-01 00:00"
                   (mkInput "kb" 0 gridKeys tt) _ _));
    [cbn [layers]; lia | reflexivity].
Defined.


End PdfPageFacts.

(* ------------------------------------------------------------------ *)
(** ** The dummy flag of the device connection *)

Module DeviceConnectionFacts.
Import DeviceConnection.
Local Open Scope list_scope.

Lemma fold_apply_flag (updates : list Update) :
  forall s,
    isDummy (fold_left apply updates s)
    = dummy_since_disconnect updates (isDummy s) /\
    (isDummy s = true -> connectedDevice s <> None ->
     isDummy (fold_left apply updates s) = true ->
     connectedDevice (fold_left apply updates s) <> None) /\
    (isDummy s = false ->
     isDummy (fold_left apply updates s) = true ->
     connectedDevice (fold_left apply updates s) <> None).
Proof.
  induction updates as [| u updates IH]; intros s.
  - cbn [fold_left dummy_since_disconnect].
    split; [reflexivity | split; [tauto | congruence]].
  - cbn [fold_left]. destruct (IH (apply s u)) as [Hflag [Hon Hoff]].
    split; [| split].
    + rewrite Hflag. destruct u; reflexivity.
    + intros Hd Hc Hend.
      destruct u; cbn [apply isDummy connectedDevice] in Hon, Hoff;
        first [ apply Hon;
                [ first [assumption | reflexivity]
                | first [assumption | discriminate]
                | assumption ]
              | apply Hoff; [reflexivity | assumption] ].
    + intros Hd Hend.
      destruct u; cbn [apply isDummy connectedDevice] in Hon, Hoff;
        first [ apply Hoff; [first [assumption | reflexivity] | assumption]
              | apply Hon; [reflexivity | discriminate | assumption] ].
Qed.

(** X28. The dummy flag never outlives the connection.  After any
    sequence of state updates, [isDummy] is set exactly when the dummy
    keyboard was connected and nothing has disconnected since; and
    whenever it is set, a device is connected. *)
Theorem isDummy_implies_connected (updates : list Update) :
  isDummy (run updates) = dummy_since_disconnect updates false /\
  (isDummy (run updates) = true -> connectedDevice (run updates) <> None).
Proof.
  unfold run. destruct (fold_apply_flag updates initial) as [Hflag [_ Hoff]].
  split; [exact Hflag | apply Hoff; reflexivity].
Qed.

End DeviceConnectionFacts.
